(** * Quantum battleship hunt (battle.py)

  A shallow embedding of the probing oracle ([probe_cell], [exec_quantum]),
  the two observation circuits, the target placement loop and the scan
  loop of battle.py, with the properties of the design document proved
  about them.

  Conventions.  Python integers are [Z]; indices produced by [range] are
  [nat].  A NumPy matrix is a list of rows; its cells hold the numbers the
  script stores in them (0, 1 and -1).  Angles, Python floats in the
  script, are idealised as real numbers.  The simulator or the hardware
  sampler is an oracle: the memory it returns for the k-th job it is
  given.  [debug_mode] is [False] in the script, so its prints are left
  out; the progress print changes no variable and is left out as well. *)

From Stdlib Require Import ZArith List String Ascii Lia Reals.
From stdpp Require Import base list gmap.
Import ListNotations.
Local Open Scope Z_scope.

(** ** Configuration parameters (lines 11-16) *)

Definition rotation_angle : R := (PI / 310)%R.
Definition cycle_count : nat := 30.
Definition max_grid_dim : Z := 10.
Definition min_grid_dim : Z := 3.
Definition debug_mode : bool := false.

(** ** The Python operations the script uses *)

Module Py.

(** [range(n)] *)
Definition range (n : nat) : list nat := seq 0 n.

(** [needle in hay] on strings: [needle] occurs as a substring. *)
Fixpoint str_in (needle hay : string) : bool :=
  String.prefix needle hay ||
  match hay with
  | EmptyString => false
  | String _ rest => str_in needle rest
  end.

(** [s[i]] on a string: the one-character string at [i], if any. *)
Definition str_item (s : string) (i : nat) : option string :=
  match String.get i s with
  | Some ch => Some (String ch EmptyString)
  | None => None
  end.

(** [bool(x)] on a number. *)
Definition bool_of (x : Z) : bool := negb (x =? 0).

(** A bit string as the backends print it: one character per bit. *)
Definition bit_char (b : bool) : ascii := if b then "1"%char else "0"%char.

Fixpoint bitstring (bits : list bool) : string :=
  match bits with
  | [] => EmptyString
  | b :: rest => String (bit_char b) (bitstring rest)
  end.

(** [s * n] on a string: [n] copies of [s], none when [n] is not
    positive. *)
Fixpoint str_mul_nat (s : string) (n : nat) : string :=
  match n with
  | O => EmptyString
  | S k => String.append s (str_mul_nat s k)
  end.

Definition str_mul (s : string) (n : Z) : string := str_mul_nat s (Z.to_nat n).

End Py.

(** ** NumPy matrices *)

Module Np.

Abbreviation matrix := (list (list Z)).

(** [np.zeros((n, m))] *)
Definition zeros (n m : nat) : matrix := replicate n (replicate m 0).

(** [a[r][c]]; [None] stands for IndexError. *)
Definition getitem (a : matrix) (r c : nat) : option Z :=
  match a !! r with
  | Some row => row !! c
  | None => None
  end.

(** [a[r][c] = v]; [None] stands for IndexError. *)
Definition setitem (a : matrix) (r c : nat) (v : Z) : option matrix :=
  match a !! r with
  | Some row =>
      if (c <? length row)%nat then Some (<[r := <[c := v]> row]> a) else None
  | None => None
  end.

(** Sum of [f] over a list, and over all the cells of a matrix. *)
Definition sum_list_with {A} (f : A -> Z) (l : list A) : Z :=
  fold_right (fun a acc => f a + acc) 0 l.

Definition sum_with (f : Z -> Z) (a : matrix) : Z :=
  sum_list_with (sum_list_with f) a.

(** [np.sum(a == v)]: the number of cells equal to [v]. *)
Definition sum_eq (a : matrix) (v : Z) : Z :=
  sum_with (fun x => if x =? v then 1 else 0) a.

(** [a.shape == (n, m)] *)
Definition has_shape (a : matrix) (n m : nat) : Prop :=
  length a = n /\ Forall (fun row => length row = m) a.

End Np.

(** ** The observation circuits (lines 118-127) *)

Module Circuit.

Inductive instruction :=
| Ry (theta : R) (qubit : nat)
| Measure (qubit clbit : nat).

Record QuantumCircuit := mkQC {
  num_qubits : nat;
  num_clbits : nat;
  data : list instruction
}.

(** [QuantumCircuit(q, c)] *)
Definition new (q c : nat) : QuantumCircuit := mkQC q c [].

Definition append (i : instruction) (qc : QuantumCircuit) : QuantumCircuit :=
  mkQC (num_qubits qc) (num_clbits qc) (data qc ++ [i]).

(** [qc.ry(theta, q)] and [qc.measure(q, c)] *)
Definition ry (theta : R) (q : nat) := append (Ry theta q).
Definition measure (q c : nat) := append (Measure q c).

(** One turn of the set-up loop (lines 124-126) on the pair
    (target_qc, clear_qc). *)
Definition setup_step (qcs : QuantumCircuit * QuantumCircuit) (i : nat)
  : QuantumCircuit * QuantumCircuit :=
  (measure 0 i (ry (2 * rotation_angle) 0 (fst qcs)),
   ry (2 * rotation_angle) 0 (snd qcs)).

(** Lines 119-127, for a cycle count [n]. *)
Definition setup (n : nat) : QuantumCircuit * QuantumCircuit :=
  let qcs := fold_left setup_step (Py.range n) (new 1 n, new 1 1) in
  (fst qcs, measure 0 0 (snd qcs)).

Definition target_qc : QuantumCircuit := fst (setup cycle_count).
Definition clear_qc : QuantumCircuit := snd (setup cycle_count).

(** The state of the qubit: the real amplitudes of its ground and excited
    levels.  [Ry theta] turns this vector by [theta / 2]. *)
Definition amplitudes : Type := R * R.

Definition ground : amplitudes := (1%R, 0%R).

Definition apply_ry (theta : R) (a : amplitudes) : amplitudes :=
  ((cos (theta / 2) * fst a - sin (theta / 2) * snd a)%R,
   (sin (theta / 2) * fst a + cos (theta / 2) * snd a)%R).

(** The evolution a circuit applies before its first read. *)
Fixpoint evolve (prog : list instruction) (a : amplitudes) : amplitudes :=
  match prog with
  | Ry theta _ :: rest => evolve rest (apply_ry theta a)
  | Measure _ _ :: _ => a
  | [] => a
  end.

Definition is_measure (i : instruction) : bool :=
  match i with Measure _ _ => true | Ry _ _ => false end.

(** The number of projective reads of a circuit. *)
Definition reads (qc : QuantumCircuit) : nat :=
  length (List.filter is_measure (data qc)).

(** The rotations of a circuit, in order, with its reads left out. *)
Definition rotations (qc : QuantumCircuit) : list instruction :=
  List.filter (fun i => negb (is_measure i)) (data qc).

(** The classical bits the reads of a circuit write, in order. *)
Fixpoint measured_clbits (prog : list instruction) : list nat :=
  match prog with
  | [] => []
  | Measure _ c :: rest => c :: measured_clbits rest
  | Ry _ _ :: rest => measured_clbits rest
  end.

End Circuit.

Import Circuit.

(** ** Program state *)

(** The module-level variables the scan changes. *)
Record globals := mkGlobals {
  result_matrix : Np.matrix;
  targets_hit : Z;
  clear_cells_detected : Z;
  cycle_executions : Z
}.

(** The globals, the number of jobs handed to the backend so far, and a
  ghost history: the globals as they were after each completed
  assignment [result_matrix[row][col] = probe_cell(...)], latest first. *)
Record world := mkWorld {
  glob : globals;
  jobs : nat;
  history : list globals
}.

Inductive exn := IndexError.

Inductive outcome (A : Type) :=
| Ok (a : A) (w : world)
| Raise (e : exn) (w : world).
Arguments Ok {A} a w.
Arguments Raise {A} e w.

Definition set_glob (g : globals) (w : world) : world :=
  mkWorld g (jobs w) (history w).

(** The ghost step: note the globals in the history. *)
Definition record_history (w : world) : world :=
  mkWorld (glob w) (jobs w) (glob w :: history w).

(** How a run of the scan loop stands after a number of sweeps. *)
Inductive run :=
| Finished (w : world)
| Running (w : world)
| Crashed (e : exn) (w : world).

Definition run_world (r : run) : world :=
  match r with
  | Finished w => w
  | Running w => w
  | Crashed _ w => w
  end.

(** How the placement loop stands after a number of draws. *)
Inductive placement :=
| Placed (target_matrix : Np.matrix)
| Drawing (target_matrix : Np.matrix) (placed : Z)
| PlaceError (e : exn).

(** ** Start-up: the parameters of a run (lines 29-101)

    [int], [str.lower] and [random.randint] are Python's own; they are
    taken as they come: [py_int s] is [None] where [int(s)] raises
    ValueError.  [inputs] are the lines that [input()] returns, one per
    call; when they run out [input()] raises EOFError. *)

Inductive startup :=
| Exit (code : Z)
| Configured (grid_dim target_count : Z) (local_sim : bool)
| EndOfInput.

Section Startup.

Variable py_int : string -> option Z.
Variable str_lower : string -> string.
Variable random_randint : Z -> Z -> Z.

(** The tests of lines 47 and 75, and of lines 56 and 88. *)
Definition dim_refused (grid_dim : Z) : bool :=
  (grid_dim <? min_grid_dim) || (grid_dim >? max_grid_dim).

Definition targets_refused (target_count cell_count : Z) : bool :=
  (target_count <? 1) || (target_count >? cell_count).

(** Lines 31-68, for [sys.argv[1]] and [sys.argv[2:]]. *)
Definition command_line (arg1 : string) (rest : list string) : startup :=
  if String.eqb arg1 "info" then Exit 0
  else if (4 <? 2 + length rest)%nat then Exit 1
  else
    match py_int arg1 with
    | None => Exit 1
    | Some grid_dim =>
        let cell_count := grid_dim ^ 2 in
        if dim_refused grid_dim then Exit 1
        else
          match rest with
          | [] => Configured grid_dim (random_randint 1 cell_count) true
          | arg2 :: rest2 =>
              match py_int arg2 with
              | None => Exit 1
              | Some target_count =>
                  if targets_refused target_count cell_count then Exit 1
                  else
                    match rest2 with
                    | [arg3] =>
                        match py_int arg3 with
                        | None => Exit 1
                        | Some mode =>
                            Configured grid_dim target_count (Py.bool_of mode)
                        end
                    | _ => Configured grid_dim target_count true
                    end
              end
          end
    end.

(** Lines 72-79: ask until a dimension is accepted. *)
Fixpoint ask_grid_dim (inputs : list string) : option (Z * list string) :=
  match inputs with
  | [] => None
  | line :: rest =>
      match py_int line with
      | Some grid_dim =>
          if dim_refused grid_dim then ask_grid_dim rest
          else if grid_dim =? 0 then ask_grid_dim rest
          else Some (grid_dim, rest)
      | None => ask_grid_dim rest
      end
  end.

(** Lines 81-92: ask until a target count is accepted; a blank line asks
    for a random one. *)
Fixpoint ask_target_count (cell_count : Z) (inputs : list string)
  : option (Z * list string) :=
  match inputs with
  | [] => None
  | inp :: rest =>
      if String.eqb inp "" then
        let target_count := random_randint 1 cell_count in
        if target_count =? 0 then ask_target_count cell_count rest
        else Some (target_count, rest)
      else
        match py_int inp with
        | Some target_count =>
            if targets_refused target_count cell_count
            then ask_target_count cell_count rest
            else if target_count =? 0 then ask_target_count cell_count rest
            else Some (target_count, rest)
        | None => ask_target_count cell_count rest
        end
  end.

(** Lines 93-101: ask until the answer is yes, blank or no. *)
Fixpoint ask_local_sim (inputs : list string) : option (bool * list string) :=
  match inputs with
  | [] => None
  | inp :: rest =>
      if String.eqb (str_lower inp) "y" || String.eqb (str_lower inp) "" ||
         String.eqb inp ""
      then Some (true, rest)
      else if String.eqb (str_lower inp) "n" then Some (false, rest)
      else ask_local_sim rest
  end.

(** Lines 71-101. *)
Definition interactive (inputs : list string) : startup :=
  match ask_grid_dim inputs with
  | None => EndOfInput
  | Some (grid_dim, inputs1) =>
      let cell_count := grid_dim ^ 2 in
      match ask_target_count cell_count inputs1 with
      | None => EndOfInput
      | Some (target_count, inputs2) =>
          match ask_local_sim inputs2 with
          | None => EndOfInput
          | Some (local_sim, _) => Configured grid_dim target_count local_sim
          end
      end
  end.

(** Lines 30-101: [len(sys.argv) > 1] chooses the command line. *)
Definition configure (argv inputs : list string) : startup :=
  match argv with
  | _ :: arg1 :: rest => command_line arg1 rest
  | _ => interactive inputs
  end.

(** The answers each prompt refuses and asks again for. *)
Definition dim_answer_refused (line : string) : Prop :=
  match py_int line with
  | Some grid_dim => dim_refused grid_dim = true
  | None => True
  end.

Definition target_answer_refused (cell_count : Z) (inp : string) : Prop :=
  if String.eqb inp "" then random_randint 1 cell_count = 0
  else
    match py_int inp with
    | Some target_count => targets_refused target_count cell_count = true
    | None => True
    end.

Definition sim_answer_refused (inp : string) : Prop :=
  inp <> ""%string /\ str_lower inp <> "y"%string /\
  str_lower inp <> ""%string /\ str_lower inp <> "n"%string.

(** The answers each prompt accepts, with the value it takes from them. *)
Definition dim_answer_accepted (line : string) (grid_dim : Z) : Prop :=
  py_int line = Some grid_dim /\ dim_refused grid_dim = false.

Definition target_answer_accepted (cell_count : Z) (inp : string)
    (target_count : Z) : Prop :=
  if String.eqb inp "" then
    target_count = random_randint 1 cell_count /\ target_count <> 0
  else
    py_int inp = Some target_count /\
    targets_refused target_count cell_count = false.

Definition sim_answer_accepted (inp : string) (local_sim : bool) : Prop :=
  if local_sim
  then str_lower inp = "y"%string \/ str_lower inp = ""%string \/
       inp = ""%string
  else str_lower inp = "n"%string /\ inp <> ""%string.

(** What [random.randint] promises. *)
Definition randint_in_range : Prop :=
  forall a b, a <= b -> a <= random_randint a b <= b.

End Startup.

(** ** Backend selection (lines 129-149)

    [aer_transpile] is [transpile(., sim_backend)] on the local simulator.
    [hardware] is what the try block of lines 135-142 yields: the run of
    the pass manager and the sampler, or [None] when one of its steps
    raises.  The result is the final value of [local_sim] and the compiler
    the two circuits have gone through. *)
Definition select_backend (local_sim : bool)
    (aer_transpile : QuantumCircuit -> QuantumCircuit)
    (hardware : option ((QuantumCircuit -> QuantumCircuit) *
                        (nat -> QuantumCircuit -> list string)))
  : bool * (QuantumCircuit -> QuantumCircuit) :=
  if local_sim then (true, aer_transpile)
  else
    match hardware with
    | Some (pass_mgr_run, _) => (false, pass_mgr_run)
    | None => (true, aer_transpile)
    end.

(** ** A small board to run the definitions on *)

Module Demo.

(** A 3 by 3 board with its one target at (0, 0). *)
Definition target_matrix : Np.matrix := [[1; 0; 0]; [0; 0; 0]; [0; 0; 0]].

(** Draws that place three targets, one of them drawn twice. *)
Definition draws : list (nat * nat) :=
  [(0, 0); (0, 0); (1, 2); (2, 2)]%nat.

(** The bits of a job on the target circuit in which only the first read
    found the qubit excited, and of one in which none did. *)
Definition excited_once : list bool := true :: replicate 29 false.
Definition quiet : list bool := replicate 30 false.

(** A backend: on the one-bit circuit every even job reads '1'; on the
    other circuit only job 0 reads a '1'. *)
Definition backend (k : nat) (qc : QuantumCircuit) : list string :=
  if (num_clbits qc =? 1)%nat
  then [Py.bitstring [Nat.even k]]
  else [Py.bitstring (if (k =? 0)%nat then excited_once else quiet)].

(** [transpile] as the identity. *)
Definition transpile (qc : QuantumCircuit) : QuantumCircuit := qc.

(** A reader of unsigned decimal numbers, a lower-casing that leaves its
    string alone, and a [randint] that returns its lower bound. *)
Definition digit (ch : ascii) : option Z :=
  let n := Z.of_nat (nat_of_ascii ch) in
  if (48 <=? n) && (n <=? 57) then Some (n - 48) else None.

Fixpoint digits (acc : Z) (s : string) : option Z :=
  match s with
  | EmptyString => Some acc
  | String ch rest =>
      match digit ch with
      | Some d => digits (10 * acc + d) rest
      | None => None
      end
  end.

Definition int (s : string) : option Z :=
  match s with
  | EmptyString => None
  | _ => digits 0 s
  end.

Definition lower (s : string) : string := s.

Definition randint (a b : Z) : Z := a.

End Demo.

Section Run.

(** Runtime variables (lines 19-22) after argument handling. *)
Variable grid_dim : nat.
Variable target_count : Z.
Definition cell_count : Z := Z.of_nat grid_dim ^ 2.

(** The ranges the argument handling enforces (lines 47 and 56). *)
Definition valid_config : Prop :=
  min_grid_dim <= Z.of_nat grid_dim <= max_grid_dim /\
  1 <= target_count <= cell_count.

(** *** Target placement (lines 103-113)

    [draws] are the pairs [(r, col)] that the two calls of
    [random.randint(0, grid_dim - 1)] give, turn after turn. *)
Fixpoint place_loop (draws : list (nat * nat)) (target_matrix : Np.matrix)
    (placed : Z) : placement :=
  if placed <? target_count then
    match draws with
    | [] => Drawing target_matrix placed
    | (r, col) :: rest =>
        match Np.getitem target_matrix r col with
        | None => PlaceError IndexError
        | Some x =>
            if negb (x =? 1) then
              match Np.setitem target_matrix r col 1 with
              | None => PlaceError IndexError
              | Some target_matrix' => place_loop rest target_matrix' (placed + 1)
              end
            else place_loop rest target_matrix placed
        end
    end
  else Placed target_matrix.

Definition place (draws : list (nat * nat)) : placement :=
  place_loop draws (Np.zeros grid_dim grid_dim) 0.

(** What [random.randint(0, grid_dim - 1)] promises of a draw. *)
Definition draw_in_range (d : nat * nat) : Prop :=
  (fst d < grid_dim)%nat /\ (snd d < grid_dim)%nat.

(** A finished placement: a [grid_dim] by [grid_dim] matrix of zeros and
    ones with [target_count] ones. *)
Definition placement_ok (target_matrix : Np.matrix) : Prop :=
  Np.has_shape target_matrix grid_dim grid_dim /\
  Forall (Forall (fun x => x = 0 \/ x = 1)) target_matrix /\
  Np.sum_eq target_matrix 1 = target_count.

(** The matrix while targets are being placed: [placed] ones so far. *)
Definition placing (target_matrix : Np.matrix) (placed : Z) : Prop :=
  Np.has_shape target_matrix grid_dim grid_dim /\
  Forall (Forall (fun x => x = 0 \/ x = 1)) target_matrix /\
  Np.sum_eq target_matrix 1 = placed.

(** The cells among [draws] that hold no target yet. *)
Definition fresh_cells (target_matrix : Np.matrix) (draws : list (nat * nat))
  : gset (nat * nat) :=
  list_to_set
    (filter (fun d => Np.getitem target_matrix (fst d) (snd d) = Some 0) draws).

(** The number of different cells among [draws]. *)
Definition distinct_cells (draws : list (nat * nat)) : nat :=
  size (list_to_set draws : gset (nat * nat)).

(** *** Backend selection (lines 130-149)

    The final value of [local_sim], the circuit compiler in use
    ([transpile] or the pass manager), and the two backends, each giving
    the memory (a list of bit strings, one per shot) of the k-th job. *)
Variable local_sim : bool.
Variable transpile : QuantumCircuit -> QuantumCircuit.
Variable sim_backend : nat -> QuantumCircuit -> list string.
Variable sampler_inst : nat -> QuantumCircuit -> list string.

Definition comp_target_qc : QuantumCircuit := transpile target_qc.
Definition comp_clear_qc : QuantumCircuit := transpile clear_qc.

(** The ground truth, fixed during the scan. *)
Variable target_matrix : Np.matrix.

(** The memory of the k-th job, from the backend in use. *)
Definition backend_memory (k : nat) (qc : QuantumCircuit) : list string :=
  if local_sim then sim_backend k qc else sampler_inst k qc.

(** [exec_quantum] (lines 173-180): one job with one shot. *)
Definition exec_quantum (qc : QuantumCircuit) (w : world) : list string * world :=
  let w' := mkWorld (glob w) (S (jobs w)) (history w) in
  if local_sim then (sim_backend (jobs w) qc, w')
  else (sampler_inst (jobs w) qc, w').

Definition incr_cycle_executions (g : globals) : globals :=
  mkGlobals (result_matrix g) (targets_hit g) (clear_cells_detected g)
            (cycle_executions g + 1).

Definition incr_targets_hit (g : globals) : globals :=
  mkGlobals (result_matrix g) (targets_hit g + 1) (clear_cells_detected g)
            (cycle_executions g).

Definition incr_clear_cells_detected (g : globals) : globals :=
  mkGlobals (result_matrix g) (targets_hit g) (clear_cells_detected g + 1)
            (cycle_executions g).

Definition set_result_matrix (m : Np.matrix) (g : globals) : globals :=
  mkGlobals m (targets_hit g) (clear_cells_detected g) (cycle_executions g).

(** The world once a probe has counted itself and run its job. *)
Definition probed (w : world) : world :=
  mkWorld (incr_cycle_executions (glob w)) (S (jobs w)) (history w).

(** [probe_cell] (lines 152-170): 1 is Hit, -1 is Clear, 0 is
    Undetermined. *)
Definition probe_cell (has_target : bool) (w : world) : outcome Z :=
  let w := set_glob (incr_cycle_executions (glob w)) w in
  let qc_to_use := if has_target then comp_target_qc else comp_clear_qc in
  let (res_mem, w) := exec_quantum qc_to_use w in
  if has_target then
    match res_mem !! 0%nat with
    | None => Raise IndexError w
    | Some s =>
        if Py.str_in "1" s
        then Ok 1 (set_glob (incr_targets_hit (glob w)) w)
        else Ok 0 w
    end
  else
    match res_mem !! 0%nat with
    | None => Raise IndexError w
    | Some s =>
        match Py.str_item s 0 with
        | None => Raise IndexError w
        | Some ch =>
            if String.eqb ch "1"
            then Ok (-1) (set_glob (incr_clear_cells_detected (glob w)) w)
            else Ok 0 w
        end
    end.

(** *** The scan loop (lines 189-201) *)

(** The loop condition of line 190 and the break condition of lines 192
    and 200, as they are written. *)
Definition scan_pending (g : globals) : bool :=
  clear_cells_detected g + target_count <? cell_count.

Definition scan_complete (g : globals) : bool :=
  clear_cells_detected g + target_count >=? cell_count.

(** [result_matrix[row][col] = v], then the ghost step. *)
Definition store_result (row col : nat) (v : Z) (w : world) : outcome unit :=
  match Np.setitem (result_matrix (glob w)) row col v with
  | None => Raise IndexError w
  | Some m => Ok tt (record_history (set_glob (set_result_matrix m (glob w)) w))
  end.

(** Lines 194-201: the columns of one row that are still to visit. *)
Fixpoint col_loop (row : nat) (cols : list nat) (w : world) : outcome unit :=
  match cols with
  | [] => Ok tt w
  | col :: rest =>
      match Np.getitem (result_matrix (glob w)) row col with
      | None => Raise IndexError w
      | Some x =>
          if x =? 0 then
            match Np.getitem target_matrix row col with
            | None => Raise IndexError w
            | Some t =>
                match probe_cell (Py.bool_of t) w with
                | Raise e w1 => Raise e w1
                | Ok v w1 =>
                    match store_result row col v w1 with
                    | Raise e w2 => Raise e w2
                    | Ok _ w2 =>
                        if scan_complete (glob w2) then Ok tt w2
                        else col_loop row rest w2
                    end
                end
            end
          else col_loop row rest w
      end
  end.

(** Lines 191-201: the rows of one sweep that are still to visit. *)
Fixpoint row_loop (rows : list nat) (w : world) : outcome unit :=
  match rows with
  | [] => Ok tt w
  | row :: rest =>
      if scan_complete (glob w) then Ok tt w
      else
        match col_loop row (Py.range grid_dim) w with
        | Raise e w1 => Raise e w1
        | Ok _ w1 => row_loop rest w1
        end
  end.

(** Lines 190-201: the while loop, followed for at most [sweeps] turns. *)
Fixpoint scan (sweeps : nat) (w : world) : run :=
  if scan_pending (glob w) then
    match sweeps with
    | O => Running w
    | S n =>
        match row_loop (Py.range grid_dim) w with
        | Raise e w1 => Crashed e w1
        | Ok _ w1 => scan n w1
        end
    end
  else Finished w.

(** The state in which the scan starts (lines 25-27 and 116). *)
Definition initial_world : world :=
  mkWorld (mkGlobals (Np.zeros grid_dim grid_dim) 0 0 0) 0 [].

(** Line 208: [targets_hit = np.sum(result_matrix == 1)]. *)
Definition report_targets_hit (g : globals) : Z := Np.sum_eq (result_matrix g) 1.

(** Line 210: the number printed as "Targets located". *)
Definition report_located (g : globals) : Z :=
  target_count - report_targets_hit g.

(** Line 199: the progress bar printed after each probe. *)
Definition progress_bar (g : globals) : string :=
  String.append
    (Py.str_mul "#" (clear_cells_detected g))
    (Py.str_mul "." (cell_count - clear_cells_detected g - target_count)).

(** *** Properties of a state of the scan *)

(** A classified cell agrees with the ground truth: Hit only on a cell
    that holds a target, Clear only on a cell that holds none. *)
Definition classified_ok (g : globals) : Prop :=
  forall r c x, Np.getitem (result_matrix g) r c = Some x ->
    x = 0 \/
    (x = 1 /\ exists t, Np.getitem target_matrix r c = Some t /\ Py.bool_of t = true) \/
    (x = -1 /\ exists t, Np.getitem target_matrix r c = Some t /\ Py.bool_of t = false).

(** The two counters agree with the matrix. *)
Definition counters_ok (g : globals) : Prop :=
  targets_hit g = Np.sum_eq (result_matrix g) 1 /\
  clear_cells_detected g = Np.sum_eq (result_matrix g) (-1).

Definition globals_ok (g : globals) : Prop :=
  Np.has_shape (result_matrix g) grid_dim grid_dim /\
  classified_ok g /\ counters_ok g.

(** One probe leads from [g1] to [g2]: a cell that was Unknown receives the
    observation [v], and nothing else of the matrix changes. *)
Definition probe_step (g1 g2 : globals) : Prop :=
  exists r c v,
    Np.getitem (result_matrix g1) r c = Some 0 /\
    Np.setitem (result_matrix g1) r c v = Some (result_matrix g2) /\
    (v = 0 \/ v = 1 \/ v = -1) /\
    (v = 0 -> result_matrix g2 = result_matrix g1) /\
    cycle_executions g2 = cycle_executions g1 + 1.


(** A history, latest first, that started from [g0]: each entry comes from
    the one before it by one probe. *)
Fixpoint linked (g0 : globals) (h : list globals) : Prop :=
  match h with
  | [] => True
  | g :: older => probe_step (hd g0 older) g /\ linked g0 older
  end.

(** The states a world has been through, latest first: the recorded ones
    and the one the scan started from. *)
Definition past (g0 : globals) (w : world) : list globals := history w ++ [g0].

(** What holds of a world at any point of the scan. *)
Definition world_ok (w : world) : Prop :=
  globals_ok (glob w) /\
  Forall globals_ok (past (glob initial_world) w) /\
  linked (glob initial_world) (history w) /\
  Forall (fun g => scan_complete g = false) (tl (past (glob initial_world) w)) /\
  cycle_executions (glob w) = Z.of_nat (jobs w).


(** What holds, in addition, whenever control is in the loops and no
    probe is under way. *)
Definition world_synced (w : world) : Prop :=
  glob w = hd (glob initial_world) (history w) /\
  length (history w) = jobs w.

(** ** Sums over lists and matrices *)

Lemma sum_list_with_app {A} (f : A -> Z) (l1 l2 : list A) :
  Np.sum_list_with f (l1 ++ l2) = Np.sum_list_with f l1 + Np.sum_list_with f l2.
Proof.
  induction l1 as [|a l1 IH]; simpl; [reflexivity|].
  unfold Np.sum_list_with in *. simpl. rewrite IH. lia.
Qed.

Lemma sum_list_with_replicate {A} (f : A -> Z) (n : nat) (x : A) :
  Np.sum_list_with f (replicate n x) = Z.of_nat n * f x.
Proof.
  induction n as [|n IH]; [reflexivity|].
  change (Np.sum_list_with f (replicate (S n) x))
    with (f x + Np.sum_list_with f (replicate n x)).
  rewrite IH. lia.
Qed.

(** Writing [x] at position [i] removes the old weight and adds the new. *)
Lemma sum_list_with_insert {A} (f : A -> Z) (l : list A) (i : nat) (old x : A) :
  l !! i = Some old ->
  Np.sum_list_with f (<[i:=x]> l) = Np.sum_list_with f l - f old + f x.
Proof.
  revert i. induction l as [|a l IH]; intros [|i] Hi; simpl in Hi; try discriminate.
  - injection Hi as ->. unfold Np.sum_list_with. simpl. lia.
  - change (Np.sum_list_with f (<[S i:=x]> (a :: l)))
      with (f a + Np.sum_list_with f (<[i:=x]> l)).
    rewrite (IH i Hi). unfold Np.sum_list_with. simpl. lia.
Qed.

(** Two lists of the same length compared position by position. *)
Lemma sum_list_with_le {A B} (f : A -> Z) (g : B -> Z) (l1 : list A) (l2 : list B) :
  length l1 = length l2 ->
  (forall i a b, l1 !! i = Some a -> l2 !! i = Some b -> f a <= g b) ->
  Np.sum_list_with f l1 <= Np.sum_list_with g l2.
Proof.
  revert l2. induction l1 as [|a l1 IH]; intros [|b l2] Hlen H; simpl in Hlen;
    try (exfalso; lia).
  - reflexivity.
  - unfold Np.sum_list_with in *. simpl.
    specialize (IH l2 ltac:(lia) (fun i => H (S i))).
    specialize (H 0%nat a b eq_refl eq_refl). lia.
Qed.


Lemma sum_list_with_ext {A} (f g : A -> Z) (l : list A) :
  Forall (fun a => f a = g a) l ->
  Np.sum_list_with f l = Np.sum_list_with g l.
Proof.
  induction 1 as [|a l Ha _ IH]; [reflexivity|].
  unfold Np.sum_list_with in *. simpl. rewrite Ha, IH. reflexivity.
Qed.

Lemma sum_list_with_plus {A} (f g : A -> Z) (l : list A) :
  Np.sum_list_with (fun a => f a + g a) l =
  Np.sum_list_with f l + Np.sum_list_with g l.
Proof.
  induction l as [|a l IH]; [reflexivity|].
  unfold Np.sum_list_with in *. simpl. rewrite IH. lia.
Qed.

Lemma sum_list_with_const {A} (k : Z) (l : list A) :
  Np.sum_list_with (fun _ => k) l = Z.of_nat (length l) * k.
Proof.
  induction l as [|a l IH]; [reflexivity|].
  unfold Np.sum_list_with in *. simpl length. simpl fold_right. rewrite IH. lia.
Qed.

(** ** Reading and writing the cells of a matrix *)

Lemma getitem_Some (a : Np.matrix) (r c : nat) (x : Z) :
  Np.getitem a r c = Some x <->
  exists row, a !! r = Some row /\ row !! c = Some x.
Proof.
  unfold Np.getitem. destruct (a !! r) as [row|]; split.
  - intros H. exists row. auto.
  - intros (row' & Hr & Hc). injection Hr as <-. exact Hc.
  - discriminate.
  - intros (row' & Hr & _). discriminate.
Qed.

Lemma setitem_Some (a : Np.matrix) (r c : nat) (v : Z) (a' : Np.matrix) :
  Np.setitem a r c v = Some a' <->
  exists row, a !! r = Some row /\ (c < length row)%nat /\
              a' = <[r := <[c := v]> row]> a.
Proof.
  unfold Np.setitem. destruct (a !! r) as [row|]; split.
  - destruct (Nat.ltb_spec c (length row)) as [Hlt|Hge]; intros Heq;
      [|discriminate].
    injection Heq as <-. exists row. auto.
  - intros (row' & Hr & Hc & ->). injection Hr as <-.
    destruct (Nat.ltb_spec c (length row)) as [Hlt|Hge]; [reflexivity | lia].
  - discriminate.
  - intros (row' & Hr & _). discriminate.
Qed.

(** A cell that can be read can be written. *)
Lemma setitem_after_getitem (a : Np.matrix) (r c : nat) (x v : Z) :
  Np.getitem a r c = Some x -> exists a', Np.setitem a r c v = Some a'.
Proof.
  intros (row & Hr & Hc)%getitem_Some.
  exists (<[r := <[c := v]> row]> a). apply setitem_Some.
  exists row. split; [exact Hr|]. split; [|reflexivity].
  apply lookup_lt_Some in Hc. exact Hc.
Qed.

Lemma getitem_setitem_eq (a a' : Np.matrix) (r c : nat) (v : Z) :
  Np.setitem a r c v = Some a' -> Np.getitem a' r c = Some v.
Proof.
  intros (row & Hr & Hc & ->)%setitem_Some. apply getitem_Some.
  exists (<[c := v]> row). split.
  - apply list_lookup_insert_eq. apply lookup_lt_Some in Hr. exact Hr.
  - apply list_lookup_insert_eq. exact Hc.
Qed.

Lemma getitem_setitem_ne (a a' : Np.matrix) (r c r' c' : nat) (v : Z) :
  Np.setitem a r c v = Some a' -> (r, c) <> (r', c') ->
  Np.getitem a' r' c' = Np.getitem a r' c'.
Proof.
  intros (row & Hr & Hc & ->)%setitem_Some Hne. unfold Np.getitem.
  destruct (decide (r = r')) as [Heq|Hrr].
  - subst r'.
    rewrite list_lookup_insert_eq by (apply lookup_lt_Some in Hr; exact Hr).
    rewrite Hr. apply list_lookup_insert_ne. congruence.
  - rewrite list_lookup_insert_ne by exact Hrr. reflexivity.
Qed.

(** Writing the value a cell already holds changes nothing. *)
Lemma setitem_same (a a' : Np.matrix) (r c : nat) (v : Z) :
  Np.getitem a r c = Some v -> Np.setitem a r c v = Some a' -> a' = a.
Proof.
  intros (row & Hr & Hc)%getitem_Some (row' & Hr' & _ & ->)%setitem_Some.
  rewrite Hr in Hr'. injection Hr' as <-.
  rewrite (list_insert_id row c v Hc). apply list_insert_id. exact Hr.
Qed.

Lemma setitem_shape (a a' : Np.matrix) (n m r c : nat) (v : Z) :
  Np.has_shape a n m -> Np.setitem a r c v = Some a' -> Np.has_shape a' n m.
Proof.
  intros [Hn Hm] (row & Hr & Hc & ->)%setitem_Some. split.
  - rewrite length_insert. exact Hn.
  - apply Forall_insert; [exact Hm|]. rewrite length_insert.
    rewrite Forall_lookup in Hm. exact (Hm r row Hr).
Qed.

Lemma sum_with_setitem (f : Z -> Z) (a a' : Np.matrix) (r c : nat) (old v : Z) :
  Np.getitem a r c = Some old -> Np.setitem a r c v = Some a' ->
  Np.sum_with f a' = Np.sum_with f a - f old + f v.
Proof.
  intros (row & Hr & Hc)%getitem_Some (row' & Hr' & _ & ->)%setitem_Some.
  rewrite Hr in Hr'. injection Hr' as <-. unfold Np.sum_with.
  rewrite (sum_list_with_insert _ a r row _ Hr).
  rewrite (sum_list_with_insert f row c old v Hc). lia.
Qed.

Lemma getitem_in_shape (a : Np.matrix) (n m r c : nat) :
  Np.has_shape a n m -> (r < n)%nat -> (c < m)%nat ->
  exists x, Np.getitem a r c = Some x.
Proof.
  intros [Hn Hm] Hr Hc.
  destruct (lookup_lt_is_Some_2 a r) as [row Hrow]; [lia|].
  rewrite Forall_lookup in Hm. specialize (Hm r row Hrow).
  destruct (lookup_lt_is_Some_2 row c) as [x Hx]; [lia|].
  exists x. apply getitem_Some. exists row. auto.
Qed.

Lemma getitem_shape_lt (a : Np.matrix) (n m r c : nat) (x : Z) :
  Np.has_shape a n m -> Np.getitem a r c = Some x -> (r < n)%nat /\ (c < m)%nat.
Proof.
  intros [Hn Hm] (row & Hr & Hc)%getitem_Some.
  rewrite Forall_lookup in Hm. specialize (Hm r row Hr).
  apply lookup_lt_Some in Hr, Hc. lia.
Qed.

Lemma zeros_shape (n m : nat) : Np.has_shape (Np.zeros n m) n m.
Proof.
  split; [apply length_replicate|].
  apply Forall_replicate. apply length_replicate.
Qed.

Lemma getitem_zeros (n m r c : nat) (x : Z) :
  Np.getitem (Np.zeros n m) r c = Some x -> x = 0.
Proof.
  intros (row & Hr & Hc)%getitem_Some.
  apply lookup_replicate in Hr as [-> _].
  apply lookup_replicate in Hc as [-> _]. reflexivity.
Qed.

Lemma sum_with_zeros (f : Z -> Z) (n m : nat) :
  Np.sum_with f (Np.zeros n m) = Z.of_nat n * (Z.of_nat m * f 0).
Proof.
  unfold Np.sum_with, Np.zeros.
  rewrite sum_list_with_replicate, sum_list_with_replicate. reflexivity.
Qed.

(** The cells of a matrix, each counted once. *)
Lemma sum_with_one (a : Np.matrix) (n m : nat) :
  Np.has_shape a n m -> Np.sum_with (fun _ => 1) a = Z.of_nat n * Z.of_nat m.
Proof.
  intros [Hn Hm]. unfold Np.sum_with.
  rewrite (sum_list_with_ext _ (fun _ => Z.of_nat m * 1) a).
  - rewrite sum_list_with_const, Hn. lia.
  - eapply Forall_impl; [exact Hm|]. intros row Hrow. simpl in Hrow.
    rewrite sum_list_with_const, Hrow. reflexivity.
Qed.

Lemma sum_with_ext (f g : Z -> Z) (a : Np.matrix) :
  Forall (Forall (fun x => f x = g x)) a -> Np.sum_with f a = Np.sum_with g a.
Proof.
  intros H. unfold Np.sum_with. apply sum_list_with_ext.
  eapply Forall_impl; [exact H|]. intros row Hrow. simpl in Hrow.
  apply sum_list_with_ext. exact Hrow.
Qed.

Lemma sum_with_plus (f g : Z -> Z) (a : Np.matrix) :
  Np.sum_with (fun x => f x + g x) a = Np.sum_with f a + Np.sum_with g a.
Proof.
  unfold Np.sum_with. rewrite <- sum_list_with_plus.
  apply sum_list_with_ext. apply Forall_forall. intros row _.
  apply sum_list_with_plus.
Qed.

(** Cell by cell comparison of two matrices of one shape. *)
Lemma sum_with_le (f g : Z -> Z) (a b : Np.matrix) (n m : nat) :
  Np.has_shape a n m -> Np.has_shape b n m ->
  (forall r c x y, Np.getitem a r c = Some x -> Np.getitem b r c = Some y ->
                   f x <= g y) ->
  Np.sum_with f a <= Np.sum_with g b.
Proof.
  intros [Han Ham] [Hbn Hbm] H. unfold Np.sum_with.
  apply sum_list_with_le; [congruence|].
  intros r ra rb Hra Hrb. rewrite Forall_lookup in Ham, Hbm.
  apply sum_list_with_le.
  - rewrite (Ham r ra Hra), (Hbm r rb Hrb). reflexivity.
  - intros c x y Hx Hy. apply (H r c).
    + apply getitem_Some. exists ra. auto.
    + apply getitem_Some. exists rb. auto.
Qed.


(** ** The two circuits *)

Lemma setup_fold (l : list nat) (qcs : QuantumCircuit * QuantumCircuit) :
  data (fst (fold_left setup_step l qcs)) =
    data (fst qcs) ++
    flat_map (fun i => [Ry (2 * rotation_angle) 0; Measure 0 i]) l /\
  data (snd (fold_left setup_step l qcs)) =
    data (snd qcs) ++ replicate (length l) (Ry (2 * rotation_angle) 0) /\
  num_clbits (fst (fold_left setup_step l qcs)) = num_clbits (fst qcs) /\
  num_clbits (snd (fold_left setup_step l qcs)) = num_clbits (snd qcs).
Proof.
  revert qcs. induction l as [|i l IH]; intros qcs.
  - cbn [fold_left flat_map length replicate]. rewrite !app_nil_r. auto.
  - cbn [fold_left flat_map length replicate].
    destruct (IH (setup_step qcs i)) as (Ht & Hc & Hnt & Hnc).
    rewrite Ht, Hc, Hnt, Hnc. unfold setup_step, measure, ry, append.
    cbn [fst snd data num_clbits]. rewrite <- !app_assoc. auto.
Qed.

(** The circuits the set-up builds for a cycle count [n]. *)
Lemma setup_data (n : nat) :
  data (fst (setup n)) =
    flat_map (fun i => [Ry (2 * rotation_angle) 0; Measure 0 i]) (Py.range n) /\
  data (snd (setup n)) =
    replicate n (Ry (2 * rotation_angle) 0) ++ [Measure 0 0] /\
  num_clbits (fst (setup n)) = n /\
  num_clbits (snd (setup n)) = 1%nat.
Proof.
  destruct (setup_fold (Py.range n) (new 1 n, new 1 1)) as (Ht & Hc & Hnt & Hnc).
  unfold setup. cbv zeta. unfold measure, append. cbn [fst snd data num_clbits].
  rewrite Ht, Hc, Hnt, Hnc. cbn [fst snd new data num_clbits app].
  unfold Py.range. rewrite length_seq. auto.
Qed.

Lemma target_qc_data :
  data target_qc =
  flat_map (fun i => [Ry (2 * rotation_angle) 0; Measure 0 i]) (Py.range cycle_count).
Proof. exact (proj1 (setup_data cycle_count)). Qed.

Lemma clear_qc_data :
  data clear_qc =
  replicate cycle_count (Ry (2 * rotation_angle) 0) ++ [Measure 0 0].
Proof. exact (proj1 (proj2 (setup_data cycle_count))). Qed.

Lemma reads_flat_map (l : list nat) :
  length (List.filter is_measure
            (flat_map (fun i => [Ry (2 * rotation_angle) 0; Measure 0 i]) l)) =
  length l.
Proof. induction l as [|i l IH]; simpl; [reflexivity | rewrite IH; reflexivity]. Qed.

Lemma reads_replicate_ry (n : nat) (theta : R) (tail : list instruction) :
  List.filter is_measure (replicate n (Ry theta 0) ++ tail) =
  List.filter is_measure tail.
Proof. induction n as [|n IH]; simpl; [reflexivity | exact IH]. Qed.

(** [n] turns by [theta / 2] each make one turn by [n * (theta / 2)]. *)
Lemma evolve_replicate_ry (n : nat) (theta x : R) (q c : nat) :
  evolve (replicate n (Ry theta 0) ++ [Measure q c]) (cos x, sin x) =
  (cos (x + INR n * (theta / 2)), sin (x + INR n * (theta / 2)))%R.
Proof.
  revert x. induction n as [|n IH]; intros x.
  - simpl. rewrite Rmult_0_l, Rplus_0_r. reflexivity.
  - change (replicate (S n) (Ry theta 0) ++ [Measure q c])
      with (Ry theta 0 :: (replicate n (Ry theta 0) ++ [Measure q c])).
    cbn [evolve]. unfold apply_ry. cbn [fst snd].
    replace (cos (theta / 2) * cos x - sin (theta / 2) * sin x)%R
      with (cos (x + theta / 2)) by (rewrite cos_plus; ring).
    replace (sin (theta / 2) * cos x + cos (theta / 2) * sin x)%R
      with (sin (x + theta / 2)) by (rewrite sin_plus; ring).
    rewrite IH, S_INR. f_equal; f_equal; ring.
Qed.

(** ** Reading the memory of a job *)

Lemma prefix_one (ch : ascii) (s : string) :
  String.prefix (String ch EmptyString) s =
  match s with
  | EmptyString => false
  | String x _ => Ascii.eqb ch x
  end.
Proof.
  destruct s as [|x s]; simpl; [reflexivity|].
  destruct (Ascii.ascii_dec ch x) as [->|Hne].
  - rewrite Ascii.eqb_refl. destruct s; reflexivity.
  - apply Ascii.eqb_neq in Hne. rewrite Hne. reflexivity.
Qed.

(** ['1' in s] holds exactly when some character of [s] is ['1']. *)
Lemma str_in_one (s : string) :
  Py.str_in "1" s = true <-> exists i, String.get i s = Some "1"%char.
Proof.
  induction s as [|x s IH].
  - simpl. split; [discriminate | intros [i Hi]; discriminate].
  - cbn [Py.str_in]. rewrite prefix_one, orb_true_iff, IH. split.
    + intros [Hx|[i Hi]].
      * apply Ascii.eqb_eq in Hx. subst x. exists 0%nat. reflexivity.
      * exists (S i). exact Hi.
    + intros [[|i] Hi]; simpl in Hi.
      * left. injection Hi as ->. apply Ascii.eqb_refl.
      * right. exists i. exact Hi.
Qed.

Lemma str_in_one_bitstring (bits : list bool) :
  Py.str_in "1" (Py.bitstring bits) = existsb (fun b => b) bits.
Proof.
  induction bits as [|b bits IH]; [reflexivity|].
  cbn [Py.bitstring Py.str_in existsb]. rewrite prefix_one, IH.
  destruct b; reflexivity.
Qed.

Lemma exec_quantum_eq (qc : QuantumCircuit) (w : world) :
  exec_quantum qc w =
  (backend_memory (jobs w) qc, mkWorld (glob w) (S (jobs w)) (history w)).
Proof. unfold exec_quantum, backend_memory. destruct local_sim; reflexivity. Qed.

(** [probe_cell], branch by branch. *)
Lemma probe_cell_true (w : world) :
  probe_cell true w =
  match backend_memory (jobs w) comp_target_qc !! 0%nat with
  | None => Raise IndexError (probed w)
  | Some s =>
      if Py.str_in "1" s
      then Ok 1 (set_glob (incr_targets_hit (glob (probed w))) (probed w))
      else Ok 0 (probed w)
  end.
Proof. unfold probe_cell. rewrite exec_quantum_eq. reflexivity. Qed.

Lemma probe_cell_false (w : world) :
  probe_cell false w =
  match backend_memory (jobs w) comp_clear_qc !! 0%nat with
  | None => Raise IndexError (probed w)
  | Some s =>
      match Py.str_item s 0 with
      | None => Raise IndexError (probed w)
      | Some ch =>
          if String.eqb ch "1"
          then Ok (-1) (set_glob (incr_clear_cells_detected (glob (probed w)))
                                 (probed w))
          else Ok 0 (probed w)
      end
  end.
Proof. unfold probe_cell. rewrite exec_quantum_eq. reflexivity. Qed.

(** What a probe does, whatever it observes: the probing counter and the
    job counter go up by one, the matrix and the history stay, and the
    observation fixes the other two counters. *)
Lemma probe_cell_effect (has_target : bool) (w : world) :
  match probe_cell has_target w with
  | Ok v w' =>
      result_matrix (glob w') = result_matrix (glob w) /\
      cycle_executions (glob w') = cycle_executions (glob w) + 1 /\
      jobs w' = S (jobs w) /\ history w' = history w /\
      ((v = 1 /\ has_target = true /\
        targets_hit (glob w') = targets_hit (glob w) + 1 /\
        clear_cells_detected (glob w') = clear_cells_detected (glob w)) \/
       (v = -1 /\ has_target = false /\
        targets_hit (glob w') = targets_hit (glob w) /\
        clear_cells_detected (glob w') = clear_cells_detected (glob w) + 1) \/
       (v = 0 /\
        targets_hit (glob w') = targets_hit (glob w) /\
        clear_cells_detected (glob w') = clear_cells_detected (glob w)))
  | Raise _ w' => w' = probed w
  end.
Proof.
  destruct has_target.
  - rewrite probe_cell_true.
    destruct (backend_memory (jobs w) comp_target_qc !! 0%nat) as [s|];
      [|reflexivity].
    destruct (Py.str_in "1" s); simpl; repeat (split; [reflexivity|]).
    + left. auto.
    + right. right. auto.
  - rewrite probe_cell_false.
    destruct (backend_memory (jobs w) comp_clear_qc !! 0%nat) as [s|];
      [|reflexivity].
    destruct (Py.str_item s 0) as [ch|]; [|reflexivity].
    destruct (String.eqb ch "1"); simpl; repeat (split; [reflexivity|]).
    + right. left. auto.
    + right. right. auto.
Qed.

(** ** One probe and the assignment that follows it *)

Lemma scan_complete_pending (g : globals) :
  scan_complete g = negb (scan_pending g).
Proof.
  unfold scan_complete, scan_pending.
  rewrite Z.geb_leb, Z.leb_antisym. reflexivity.
Qed.

Lemma past_hd_tl (g0 : globals) (w : world) :
  past g0 w = hd g0 (history w) :: tl (past g0 w).
Proof. unfold past. destruct (history w); reflexivity. Qed.

(** The globals after a probe of the Unknown cell [(r, c)] and the
    assignment of its observation [v]. *)
Lemma globals_ok_assign (g g' : globals) (r c : nat) (t v : Z) :
  globals_ok g ->
  Np.getitem (result_matrix g) r c = Some 0 ->
  Np.getitem target_matrix r c = Some t ->
  Np.setitem (result_matrix g) r c v = Some (result_matrix g') ->
  (v = 1 /\ Py.bool_of t = true /\
   targets_hit g' = targets_hit g + 1 /\
   clear_cells_detected g' = clear_cells_detected g) \/
  (v = -1 /\ Py.bool_of t = false /\
   targets_hit g' = targets_hit g /\
   clear_cells_detected g' = clear_cells_detected g + 1) \/
  (v = 0 /\
   targets_hit g' = targets_hit g /\
   clear_cells_detected g' = clear_cells_detected g) ->
  globals_ok g'.
Proof.
  intros (Hshape & Hclass & Hhit & Hclear) Hget Htm Hset Hv.
  split; [|split; [|split]].
  - eapply setitem_shape; eauto.
  - intros r' c' x Hx. destruct (decide ((r, c) = (r', c'))) as [Heq|Hne].
    + injection Heq as <- <-.
      rewrite (getitem_setitem_eq _ _ _ _ _ Hset) in Hx. injection Hx as <-.
      destruct Hv as [(-> & Ht & _)|[(-> & Ht & _)|(-> & _)]]; eauto 8.
    + rewrite (getitem_setitem_ne _ _ _ _ _ _ _ Hset Hne) in Hx. eauto.
  - unfold Np.sum_eq. rewrite (sum_with_setitem _ _ _ _ _ _ _ Hget Hset).
    fold (Np.sum_eq (result_matrix g) 1). simpl.
    destruct Hv as [(-> & _ & -> & _)|[(-> & _ & -> & _)|(-> & -> & _)]];
      simpl; lia.
  - unfold Np.sum_eq. rewrite (sum_with_setitem _ _ _ _ _ _ _ Hget Hset).
    fold (Np.sum_eq (result_matrix g) (-1)). simpl.
    destruct Hv as [(-> & _ & _ & ->)|[(-> & _ & _ & ->)|(-> & _ & ->)]];
      simpl; lia.
Qed.

Lemma world_ok_probed (w : world) : world_ok w -> world_ok (probed w).
Proof.
  intros (Hg & Hpast & Hlink & Htl & Hcyc).
  repeat split; try assumption; try apply Hg.
  simpl. rewrite Hcyc. lia.
Qed.

Lemma probe_store_ok (row col : nat) (t : Z) (w : world) :
  world_ok w -> world_synced w -> scan_complete (glob w) = false ->
  Np.getitem (result_matrix (glob w)) row col = Some 0 ->
  Np.getitem target_matrix row col = Some t ->
  match probe_cell (Py.bool_of t) w with
  | Raise _ w1 => world_ok w1
  | Ok v w1 =>
      exists w2, store_result row col v w1 = Ok tt w2 /\
                 world_ok w2 /\ world_synced w2 /\ jobs w2 = S (jobs w)
  end.
Proof.
  intros Hok [Hlatest Hlen] Hinc Hget Htm.
  pose proof (probe_cell_effect (Py.bool_of t) w) as Heff.
  destruct (probe_cell (Py.bool_of t) w) as [v w1|e w1].
  2:{ subst w1. apply world_ok_probed, Hok. }
  destruct Heff as (Hres & Hcyc & Hjobs & Hhist & Hv).
  destruct (setitem_after_getitem _ _ _ _ v Hget) as [m Hm].
  unfold store_result. rewrite Hres, Hm. eexists. split; [reflexivity|].
  destruct Hok as (Hg & Hpast & Hlink & Htl & Hcj).
  set (g2 := set_result_matrix m (glob w1)).
  assert (Hg2 : globals_ok g2).
  { apply (globals_ok_assign (glob w) g2 row col t v Hg Hget Htm Hm).
    subst g2. simpl. tauto. }
  assert (Hv3 : v = 0 \/ v = 1 \/ v = -1) by tauto.
  assert (Hstep : probe_step (glob w) g2).
  { exists row, col, v.
    split; [exact Hget|]. split; [exact Hm|]. split; [exact Hv3|].
    split; [|exact Hcyc].
    intros ->. eapply setitem_same; eauto. }
  unfold world_ok, world_synced, past in *.
  set (g0 := glob initial_world) in *.
  cbn [record_history set_glob glob jobs history linked hd length tl app].
  rewrite Hhist, Hjobs.
  split; [|split; [split; [reflexivity | lia] | reflexivity]].
  split; [exact Hg2|]. split; [constructor; assumption|].
  split; [split; [rewrite <- Hlatest; exact Hstep | exact Hlink]|].
  split; [|subst g2; simpl; lia].
  fold (past g0 w). rewrite past_hd_tl, <- Hlatest. constructor; assumption.
Qed.

(** ** The loops keep the invariant *)

Lemma col_loop_ok (row : nat) (cols : list nat) (w : world) :
  world_ok w -> world_synced w -> scan_complete (glob w) = false ->
  match col_loop row cols w with
  | Ok _ w' => world_ok w' /\ world_synced w'
  | Raise _ w' => world_ok w'
  end.
Proof.
  revert w. induction cols as [|col rest IH]; intros w Hok Hsync Hinc.
  - simpl. auto.
  - cbn [col_loop].
    destruct (Np.getitem (result_matrix (glob w)) row col) as [x|] eqn:Hget;
      [|exact Hok].
    destruct (Z.eqb_spec x 0) as [->|Hx]; [|apply IH; assumption].
    destruct (Np.getitem target_matrix row col) as [t|] eqn:Htm; [|exact Hok].
    pose proof (probe_store_ok row col t w Hok Hsync Hinc Hget Htm) as Hstep.
    destruct (probe_cell (Py.bool_of t) w) as [v w1|e w1]; [|exact Hstep].
    destruct Hstep as (w2 & -> & Hok2 & Hsync2 & _).
    destruct (scan_complete (glob w2)) eqn:Hc2; [auto|].
    apply IH; assumption.
Qed.

Lemma row_loop_ok (rows : list nat) (w : world) :
  world_ok w -> world_synced w ->
  match row_loop rows w with
  | Ok _ w' => world_ok w' /\ world_synced w'
  | Raise _ w' => world_ok w'
  end.
Proof.
  revert w. induction rows as [|row rest IH]; intros w Hok Hsync.
  - simpl. auto.
  - cbn [row_loop]. destruct (scan_complete (glob w)) eqn:Hc; [auto|].
    pose proof (col_loop_ok row (Py.range grid_dim) w Hok Hsync Hc) as Hcol.
    destruct (col_loop row (Py.range grid_dim) w) as [[] w1|e w1];
      [|exact Hcol].
    destruct Hcol as [Hok1 Hsync1]. apply IH; assumption.
Qed.

Lemma scan_ok (sweeps : nat) (w : world) :
  world_ok w -> world_synced w ->
  match scan sweeps w with
  | Finished w' =>
      world_ok w' /\ world_synced w' /\ scan_complete (glob w') = true
  | Running w' =>
      world_ok w' /\ world_synced w' /\ scan_complete (glob w') = false
  | Crashed _ w' => world_ok w'
  end.
Proof.
  revert w. induction sweeps as [|n IH]; intros w Hok Hsync.
  - cbn [scan]. pose proof (scan_complete_pending (glob w)) as Hc.
    destruct (scan_pending (glob w)); simpl in Hc; auto.
  - cbn [scan]. pose proof (scan_complete_pending (glob w)) as Hc.
    destruct (scan_pending (glob w)); simpl in Hc; [|auto].
    pose proof (row_loop_ok (Py.range grid_dim) w Hok Hsync) as Hrow.
    destruct (row_loop (Py.range grid_dim) w) as [[] w1|e w1]; [|exact Hrow].
    destruct Hrow as [Hok1 Hsync1]. apply IH; assumption.
Qed.

Lemma initial_world_ok : world_ok initial_world /\ world_synced initial_world.
Proof.
  assert (Hg : globals_ok (glob initial_world)).
  { split; [|split; [|split]]; simpl.
    - apply zeros_shape.
    - intros r c x Hx. left. eapply getitem_zeros, Hx.
    - unfold Np.sum_eq. rewrite sum_with_zeros. simpl. lia.
    - unfold Np.sum_eq. rewrite sum_with_zeros. simpl. lia. }
  split; [|split; reflexivity].
  split; [exact Hg|]. split; [|repeat split].
  - unfold past. simpl. constructor; [exact Hg | constructor].
  - unfold past. simpl. constructor.
Qed.

(** ** A sweep that has work to do probes *)



(** With the targets placed as the placement loop leaves them, a scan that
    is not complete still has an Unknown cell. *)
Lemma placed_zero_count (tm : Np.matrix) :
  placement_ok tm ->
  Np.sum_eq tm 0 = cell_count - target_count.
Proof.
  intros (Hshape & H01 & Hcount).
  assert (Hsum : Np.sum_eq tm 0 + Np.sum_eq tm 1 =
                 Z.of_nat grid_dim * Z.of_nat grid_dim).
  { unfold Np.sum_eq. rewrite <- sum_with_plus.
    rewrite <- (sum_with_one tm grid_dim grid_dim Hshape).
    apply sum_with_ext. eapply Forall_impl; [exact H01|].
    intros row Hrow. eapply Forall_impl; [exact Hrow|].
    intros x [->| ->]; reflexivity. }
  unfold cell_count. lia.
Qed.



(** ** The placement loop *)

Lemma setitem_Forall (P : Z -> Prop) (a a' : Np.matrix) (r c : nat) (v : Z) :
  Forall (Forall P) a -> P v -> Np.setitem a r c v = Some a' ->
  Forall (Forall P) a'.
Proof.
  intros Ha Hv (row & Hr & Hc & ->)%setitem_Some.
  apply Forall_insert; [exact Ha|]. apply Forall_insert; [|exact Hv].
  rewrite Forall_lookup in Ha. exact (Ha r row Hr).
Qed.

Lemma getitem_Forall (P : Z -> Prop) (a : Np.matrix) (r c : nat) (x : Z) :
  Forall (Forall P) a -> Np.getitem a r c = Some x -> P x.
Proof.
  intros Ha (row & Hr & Hc)%getitem_Some.
  rewrite Forall_lookup in Ha. specialize (Ha r row Hr).
  rewrite Forall_lookup in Ha. exact (Ha c x Hc).
Qed.

(** Setting a cell that holds no target yet. *)
Lemma placing_accept (tm tm' : Np.matrix) (placed : Z) (r c : nat) :
  placing tm placed -> Np.getitem tm r c = Some 0 ->
  Np.setitem tm r c 1 = Some tm' -> placing tm' (placed + 1).
Proof.
  intros (Hshape & H01 & Hsum) Hget Hset. split; [|split].
  - eapply setitem_shape; eauto.
  - eapply setitem_Forall; eauto.
  - unfold Np.sum_eq in *.
    rewrite (sum_with_setitem _ _ _ _ _ _ _ Hget Hset), Hsum. simpl. lia.
Qed.

Lemma zeros_placing : placing (Np.zeros grid_dim grid_dim) 0.
Proof.
  split; [apply zeros_shape|]. split.
  - apply Forall_replicate, Forall_replicate. left. reflexivity.
  - unfold Np.sum_eq. rewrite sum_with_zeros. simpl. lia.
Qed.

(** The two ways a turn of the loop goes: the draw is rejected when the
    cell holds a target already, and accepted otherwise. *)
Lemma place_loop_reject (r c : nat) (rest : list (nat * nat))
    (tm : Np.matrix) (placed : Z) :
  placed < target_count -> Np.getitem tm r c = Some 1 ->
  place_loop ((r, c) :: rest) tm placed = place_loop rest tm placed.
Proof.
  intros Hlt Hget. cbn [place_loop].
  destruct (Z.ltb_spec placed target_count); [|lia]. rewrite Hget. reflexivity.
Qed.

Lemma place_loop_accept (r c : nat) (rest : list (nat * nat))
    (tm tm' : Np.matrix) (placed x : Z) :
  placed < target_count -> Np.getitem tm r c = Some x -> x <> 1 ->
  Np.setitem tm r c 1 = Some tm' ->
  place_loop ((r, c) :: rest) tm placed = place_loop rest tm' (placed + 1).
Proof.
  intros Hlt Hget Hx Hset. cbn [place_loop].
  destruct (Z.ltb_spec placed target_count); [|lia]. rewrite Hget.
  destruct (Z.eqb_spec x 1); [contradiction|]. cbn [negb]. rewrite Hset.
  reflexivity.
Qed.

(** What the loop leaves, however it ends. *)
Lemma place_loop_inv (draws : list (nat * nat)) (tm : Np.matrix) (placed : Z) :
  placing tm placed -> placed <= target_count ->
  match place_loop draws tm placed with
  | Placed tm' => placement_ok tm'
  | Drawing tm' placed' => placing tm' placed' /\ placed' < target_count
  | PlaceError _ => ~ Forall draw_in_range draws
  end.
Proof.
  revert tm placed. induction draws as [|[r c] rest IH]; intros tm placed Hp Hle.
  - cbn [place_loop]. destruct (Z.ltb_spec placed target_count); [auto|].
    destruct Hp as (Hshape & H01 & Hsum).
    split; [exact Hshape|]. split; [exact H01|]. lia.
  - destruct (Z.ltb_spec placed target_count) as [Hlt|Hge].
    2:{ cbn [place_loop]. destruct (Z.ltb_spec placed target_count); [lia|].
        destruct Hp as (Hshape & H01 & Hsum).
    split; [exact Hshape|]. split; [exact H01|]. lia. }
    destruct (Np.getitem tm r c) as [x|] eqn:Hget.
    + destruct (Z.eq_dec x 1) as [->|Hx].
      * rewrite (place_loop_reject r c rest tm placed Hlt Hget).
        specialize (IH tm placed Hp Hle).
        destruct (place_loop rest tm placed); try exact IH.
        intros Hall. apply IH. inversion Hall; assumption.
      * destruct (setitem_after_getitem _ _ _ _ 1 Hget) as [tm' Hset].
        rewrite (place_loop_accept r c rest tm tm' placed x Hlt Hget Hx Hset).
        assert (x = 0) as ->.
        { destruct Hp as (_ & H01 & _).
          destruct (getitem_Forall _ _ _ _ _ H01 Hget); [assumption|contradiction]. }
        specialize (IH tm' (placed + 1)
                      (placing_accept tm tm' placed r c Hp Hget Hset)
                      ltac:(lia)).
        destruct (place_loop rest tm' (placed + 1)); try exact IH.
        intros Hall. apply IH. inversion Hall; assumption.
    + cbn [place_loop]. destruct (Z.ltb_spec placed target_count); [|lia].
      rewrite Hget. intros Hall. inversion Hall as [|d l [Hr Hc] _]; subst.
      simpl in Hr, Hc.
      destruct (getitem_in_shape tm grid_dim grid_dim r c (proj1 Hp) Hr Hc)
        as [x Hx]. congruence.
Qed.

(** Enough different cells among the draws and the loop ends. *)
Lemma fresh_cells_reject (tm : Np.matrix) (r c : nat) (rest : list (nat * nat)) :
  Np.getitem tm r c = Some 1 ->
  fresh_cells tm ((r, c) :: rest) = fresh_cells tm rest.
Proof.
  intros Hget. unfold fresh_cells. rewrite filter_cons_False; [reflexivity|].
  simpl. rewrite Hget. discriminate.
Qed.

Lemma fresh_cells_accept (tm tm' : Np.matrix) (r c : nat)
    (rest : list (nat * nat)) :
  Np.setitem tm r c 1 = Some tm' ->
  (size (fresh_cells tm ((r, c) :: rest)) <= S (size (fresh_cells tm' rest)))%nat.
Proof.
  intros Hset.
  transitivity (size ({[(r, c)]} ∪ fresh_cells tm' rest)).
  - apply subseteq_size. intros d Hd. unfold fresh_cells in Hd |- *.
    apply elem_of_list_to_set, list_elem_of_filter in Hd as [Hfresh Hin].
    destruct (decide (d = (r, c))) as [->|Hne].
    + apply elem_of_union_l, elem_of_singleton. reflexivity.
    + apply elem_of_union_r, elem_of_list_to_set, list_elem_of_filter.
      apply elem_of_cons in Hin as [Heq|Hin]; [contradiction|].
      split; [|exact Hin]. destruct d as [r' c']. simpl in Hfresh, Hne |- *.
      rewrite (getitem_setitem_ne _ _ _ _ r' c' _ Hset); [exact Hfresh|].
      intros Heq. apply Hne. symmetry. exact Heq.
  - rewrite size_union_alt, size_singleton.
    apply le_n_S, subseteq_size. intros d Hd.
    apply elem_of_difference in Hd. exact (proj1 Hd).
Qed.

Lemma place_loop_ends (draws : list (nat * nat)) (tm : Np.matrix) (placed : Z) :
  Forall draw_in_range draws -> placing tm placed ->
  target_count <= placed + Z.of_nat (size (fresh_cells tm draws)) ->
  exists tm', place_loop draws tm placed = Placed tm'.
Proof.
  revert tm placed.
  induction draws as [|[r c] rest IH]; intros tm placed Hall Hp Hfresh.
  - cbn [place_loop]. destruct (Z.ltb_spec placed target_count); [|eauto].
    change (fresh_cells tm []) with (∅ : gset (nat * nat)) in Hfresh.
    rewrite size_empty in Hfresh. lia.
  - destruct (Z.ltb_spec placed target_count) as [Hlt|Hge].
    2:{ cbn [place_loop]. destruct (Z.ltb_spec placed target_count); [lia|eauto]. }
    inversion Hall as [|d l [Hr Hc] Hrest]; subst. simpl in Hr, Hc.
    destruct (getitem_in_shape tm grid_dim grid_dim r c (proj1 Hp) Hr Hc)
      as [x Hget].
    destruct (Z.eq_dec x 1) as [->|Hx].
    + rewrite (place_loop_reject r c rest tm placed Hlt Hget).
      apply IH; [assumption..|].
      rewrite <- (fresh_cells_reject tm r c rest Hget). exact Hfresh.
    + destruct (setitem_after_getitem _ _ _ _ 1 Hget) as [tm' Hset].
      rewrite (place_loop_accept r c rest tm tm' placed x Hlt Hget Hx Hset).
      assert (x = 0) as ->.
      { destruct Hp as (_ & H01 & _).
        destruct (getitem_Forall _ _ _ _ _ H01 Hget); [assumption|contradiction]. }
      apply IH; [assumption | eapply placing_accept; eauto |].
      pose proof (fresh_cells_accept tm tm' r c rest Hset). lia.
Qed.

Lemma fresh_cells_zeros (draws : list (nat * nat)) :
  Forall draw_in_range draws ->
  fresh_cells (Np.zeros grid_dim grid_dim) draws = list_to_set draws.
Proof.
  intros Hall. unfold fresh_cells. f_equal.
  induction Hall as [|[r c] l [Hr Hc] _ IH]; [reflexivity|].
  simpl in Hr, Hc. rewrite filter_cons_True, IH; [reflexivity|]. simpl.
  destruct (getitem_in_shape _ _ _ r c (zeros_shape grid_dim grid_dim) Hr Hc)
    as [x Hx]. rewrite Hx. f_equal. eapply getitem_zeros, Hx.
Qed.

(** ** What holds along every run of the scan *)

Lemma run_ok (sweeps : nat) :
  world_ok (run_world (scan sweeps initial_world)).
Proof.
  destruct initial_world_ok as [Hok Hsync].
  pose proof (scan_ok sweeps initial_world Hok Hsync) as H.
  destruct (scan sweeps initial_world); simpl; tauto.
Qed.

Lemma run_synced (sweeps : nat) :
  match scan sweeps initial_world with
  | Finished w | Running w => world_synced w
  | Crashed _ _ => True
  end.
Proof.
  destruct initial_world_ok as [Hok Hsync].
  pose proof (scan_ok sweeps initial_world Hok Hsync) as H.
  destruct (scan sweeps initial_world); simpl; tauto.
Qed.

(** Every state a run has been through, and the one it is in. *)
Lemma run_globals_ok (sweeps : nat) :
  Forall globals_ok
    (glob (run_world (scan sweeps initial_world)) ::
     past (glob initial_world) (run_world (scan sweeps initial_world))).
Proof.
  destruct (run_ok sweeps) as (Hg & Hpast & _). constructor; assumption.
Qed.

Lemma scan_complete_true (g : globals) :
  scan_complete g = true <-> clear_cells_detected g + target_count >= cell_count.
Proof. unfold scan_complete. rewrite Z.geb_leb, Z.leb_le. lia. Qed.

Lemma scan_complete_false (g : globals) :
  scan_complete g = false <-> clear_cells_detected g + target_count < cell_count.
Proof. unfold scan_complete. rewrite Z.geb_leb, Z.leb_gt. lia. Qed.

Lemma classified_values (g : globals) :
  classified_ok g ->
  Forall (Forall (fun x => x = 0 \/ x = 1 \/ x = -1)) (result_matrix g).
Proof.
  intros Hclass. apply Forall_lookup. intros r row Hr.
  apply Forall_lookup. intros c x Hc.
  destruct (Hclass r c x) as [->|[(-> & _)|(-> & _)]]; auto.
  apply getitem_Some. eauto.
Qed.

Lemma globals_ok_cells (g : globals) :
  globals_ok g ->
  clear_cells_detected g + targets_hit g + Np.sum_eq (result_matrix g) 0 =
  cell_count.
Proof.
  intros (Hshape & Hclass & -> & ->). unfold Np.sum_eq, cell_count.
  rewrite <- !sum_with_plus.
  replace (Z.of_nat grid_dim ^ 2) with (Z.of_nat grid_dim * Z.of_nat grid_dim)
    by lia.
  rewrite <- (sum_with_one (result_matrix g) grid_dim grid_dim Hshape).
  apply sum_with_ext. pose proof (classified_values g Hclass) as Hvals.
  eapply Forall_impl; [exact Hvals|]. intros row Hrow.
  eapply Forall_impl; [exact Hrow|].
  intros x [->|[->| ->]]; reflexivity.
Qed.

Lemma globals_ok_clear_bound (g : globals) :
  placement_ok target_matrix -> globals_ok g ->
  clear_cells_detected g <= cell_count - target_count.
Proof.
  intros Hplace (Hshape & Hclass & _ & ->).
  rewrite <- (placed_zero_count target_matrix Hplace). unfold Np.sum_eq.
  apply (sum_with_le _ _ _ _ grid_dim grid_dim Hshape (proj1 Hplace)).
  intros r c x y Hx Hy. destruct (Z.eqb_spec x (-1)) as [->|Hne].
  - destruct (Hclass r c (-1) Hx) as [H0|[(H1 & _)|(_ & t & Ht & Hb)]];
      try discriminate.
    rewrite Hy in Ht. injection Ht as <-.
    unfold Py.bool_of in Hb. destruct (y =? 0); [lia | discriminate].
  - destruct (y =? 0); lia.
Qed.



Lemma linked_suffix (g0 : globals) (newer h : list globals) :
  linked g0 (newer ++ h) -> linked g0 h.
Proof.
  induction newer as [|g newer IH]; [auto|]. intros [_ H]. apply IH, H.
Qed.


(** ** The claims of the design document *)

(** C1. A probe of a cell that holds a target runs the circuit of
    [cycle_count] reads, returns Hit (1) when at least one of the bits read
    is '1' and Undetermined (0) otherwise, and never returns Clear (-1). *)
Theorem probe_target_present (w : world) :
  reads target_qc = cycle_count /\
  num_clbits target_qc = cycle_count /\
  (forall s others,
     backend_memory (jobs w) comp_target_qc = s :: others ->
     probe_cell true w =
     if Py.str_in "1" s
     then Ok 1 (set_glob (incr_targets_hit (glob (probed w))) (probed w))
     else Ok 0 (probed w)) /\
  (forall bits others,
     backend_memory (jobs w) comp_target_qc = Py.bitstring bits :: others ->
     exists w',
       probe_cell true w = Ok (if existsb (fun b => b) bits then 1 else 0) w') /\
  (forall v w', probe_cell true w = Ok v w' -> v = 1 \/ v = 0).
Proof.
  split; [|split; [|split; [|split]]].
  - unfold reads. rewrite target_qc_data, reads_flat_map.
    unfold Py.range. apply length_seq.
  - exact (proj1 (proj2 (proj2 (setup_data cycle_count)))).
  - intros s others Hmem. rewrite probe_cell_true, Hmem. reflexivity.
  - intros bits others Hmem. rewrite probe_cell_true, Hmem. cbn [lookup list_lookup].
    rewrite str_in_one_bitstring.
    destruct (existsb (fun b => b) bits); eauto.
  - intros v w' H. rewrite probe_cell_true in H.
    destruct (backend_memory (jobs w) comp_target_qc !! 0%nat) as [s|];
      [|discriminate].
    destruct (Py.str_in "1" s); injection H as <- _; auto.
Qed.

(** C2. A probe of a cell that holds no target runs the circuit that turns
    the qubit [cycle_count] times by [rotation_angle] without a read in
    between (a net turn of [cycle_count * rotation_angle]) and then reads
    once into one bit; it returns Clear (-1) when that bit is '1' and
    Undetermined (0) otherwise, and never returns Hit (1). *)
Theorem probe_target_absent (w : world) :
  data clear_qc =
    replicate cycle_count (Ry (2 * rotation_angle) 0) ++ [Measure 0 0] /\
  evolve (data clear_qc) ground =
    (cos (INR cycle_count * rotation_angle),
     sin (INR cycle_count * rotation_angle))%R /\
  reads clear_qc = 1%nat /\
  num_clbits clear_qc = 1%nat /\
  (forall s others ch,
     backend_memory (jobs w) comp_clear_qc = s :: others ->
     Py.str_item s 0 = Some ch ->
     probe_cell false w =
     if String.eqb ch "1"
     then Ok (-1) (set_glob (incr_clear_cells_detected (glob (probed w)))
                            (probed w))
     else Ok 0 (probed w)) /\
  (forall b others,
     backend_memory (jobs w) comp_clear_qc = Py.bitstring [b] :: others ->
     exists w', probe_cell false w = Ok (if b then -1 else 0) w') /\
  (forall v w', probe_cell false w = Ok v w' -> v = -1 \/ v = 0).
Proof.
  split; [exact clear_qc_data|].
  split; [|split; [|split; [|split; [|split]]]].
  - rewrite clear_qc_data. unfold ground.
    rewrite <- cos_0 at 1. rewrite <- sin_0 at 2.
    rewrite evolve_replicate_ry. f_equal; f_equal; field.
  - unfold reads. rewrite clear_qc_data, reads_replicate_ry. reflexivity.
  - exact (proj2 (proj2 (proj2 (setup_data cycle_count)))).
  - intros s others ch Hmem Hch. rewrite probe_cell_false, Hmem.
    cbn [lookup list_lookup]. rewrite Hch. reflexivity.
  - intros b others Hmem. rewrite probe_cell_false, Hmem.
    destruct b; cbn; eauto.
  - intros v w' H. rewrite probe_cell_false in H.
    destruct (backend_memory (jobs w) comp_clear_qc !! 0%nat) as [s|];
      [|discriminate].
    destruct (Py.str_item s 0) as [ch|]; [|discriminate].
    destruct (String.eqb ch "1"); injection H as <- _; auto.
Qed.

(** ** When the scan raises *)








(** C4. In every state of a run, the Clear cells, the Hit cells and the
    Unknown cells add up to [cell_count], and the Clear cells are no more
    than [cell_count - target_count]. *)
Theorem scan_counters_invariant (sweeps : nat)
    (Hplace : placement_ok target_matrix) :
  Forall (fun g =>
            clear_cells_detected g + targets_hit g +
            Np.sum_eq (result_matrix g) 0 = cell_count /\
            clear_cells_detected g <= cell_count - target_count)
    (glob (run_world (scan sweeps initial_world)) ::
     past (glob initial_world) (run_world (scan sweeps initial_world))).
Proof.
  eapply Forall_impl; [exact (run_globals_ok sweeps)|].
  intros g Hg. simpl in Hg. split.
  - apply globals_ok_cells, Hg.
  - apply globals_ok_clear_bound; assumption.
Qed.

(** C5. In every state of a run, a cell marked Hit holds a target and a
    cell marked Clear holds none, whatever the backend returned. *)
Theorem scan_classification_sound (sweeps : nat) :
  Forall (fun g =>
            forall r c,
              (Np.getitem (result_matrix g) r c = Some 1 ->
               exists t, Np.getitem target_matrix r c = Some t /\
                         Py.bool_of t = true) /\
              (Np.getitem (result_matrix g) r c = Some (-1) ->
               exists t, Np.getitem target_matrix r c = Some t /\
                         Py.bool_of t = false))
    (glob (run_world (scan sweeps initial_world)) ::
     past (glob initial_world) (run_world (scan sweeps initial_world))).
Proof.
  eapply Forall_impl; [exact (run_globals_ok sweeps)|].
  intros g (_ & Hclass & _) r c. split; intros Hget.
  - destruct (Hclass r c 1 Hget) as [H0|[(_ & Ht)|(H1 & _)]];
      [discriminate | exact Ht | discriminate].
  - destruct (Hclass r c (-1) Hget) as [H0|[(H1 & _)|(_ & Ht)]];
      [discriminate | discriminate | exact Ht].
Qed.


(** C7. A probe, whatever it observes and even if reading the memory
    fails, adds exactly one to [cycle_executions] and runs exactly one
    job; and along a run [cycle_executions] is the number of jobs run,
    which is the number of probes recorded. *)
Theorem probe_counts_once (has_target : bool) (w : world) (sweeps : nat) :
  match probe_cell has_target w with
  | Ok _ w' | Raise _ w' =>
      cycle_executions (glob w') = cycle_executions (glob w) + 1 /\
      jobs w' = S (jobs w)
  end /\
  cycle_executions (glob (run_world (scan sweeps initial_world))) =
    Z.of_nat (jobs (run_world (scan sweeps initial_world))) /\
  match scan sweeps initial_world with
  | Finished w' | Running w' => length (history w') = jobs w'
  | Crashed _ _ => True
  end.
Proof.
  split; [|split].
  - pose proof (probe_cell_effect has_target w) as H.
    destruct (probe_cell has_target w) as [v w'|e w'].
    + tauto.
    + subst w'. auto.
  - apply run_ok.
  - pose proof (run_synced sweeps) as H.
    destruct (scan sweeps initial_world); [apply H | apply H | exact I].
Qed.

(** C8. For a valid configuration, a placement loop that has ended leaves
    a [grid_dim] by [grid_dim] matrix with exactly [target_count] cells at
    1 and [cell_count - target_count] cells at 0; a draw is rejected when
    its cell holds a target already and accepted otherwise; and the loop
    does end once the draws, each within the grid, have named
    [target_count] different cells. *)
Theorem place_exact (draws : list (nat * nat)) (Hvalid : valid_config) :
  (forall tm, place draws = Placed tm ->
     Np.has_shape tm grid_dim grid_dim /\
     Forall (Forall (fun x => x = 0 \/ x = 1)) tm /\
     Np.sum_eq tm 1 = target_count /\
     Np.sum_eq tm 0 = cell_count - target_count) /\
  (forall r c rest tm placed,
     placed < target_count -> Np.getitem tm r c = Some 1 ->
     place_loop ((r, c) :: rest) tm placed = place_loop rest tm placed) /\
  (forall r c rest tm tm' placed,
     placed < target_count -> Np.getitem tm r c = Some 0 ->
     Np.setitem tm r c 1 = Some tm' ->
     place_loop ((r, c) :: rest) tm placed = place_loop rest tm' (placed + 1)) /\
  (Forall draw_in_range draws ->
     (forall e, place draws <> PlaceError e) /\
     (target_count <= Z.of_nat (distinct_cells draws) ->
      exists tm, place draws = Placed tm)).
Proof.
  destruct Hvalid as [_ Htc].
  pose proof (place_loop_inv draws _ 0 zeros_placing ltac:(lia)) as Hinv.
  fold (place draws) in Hinv.
  split; [|split; [|split]].
  - intros tm Hplaced. rewrite Hplaced in Hinv.
    pose proof (placed_zero_count tm Hinv) as Hzero.
    destruct Hinv as (Hshape & H01 & Hsum). auto.
  - intros r c rest tm placed. apply place_loop_reject.
  - intros r c rest tm tm' placed Hlt Hget Hset.
    apply (place_loop_accept r c rest tm tm' placed 0); auto; lia.
  - intros Hall. split.
    + intros e He. rewrite He in Hinv. contradiction.
    + intros Hdistinct. apply place_loop_ends; [exact Hall | exact zeros_placing |].
      rewrite (fresh_cells_zeros draws Hall). exact Hdistinct.
Qed.

(** C10. In every state of a run, [targets_hit] is the number of cells of
    the result matrix equal to 1, which is what line 208 computes for the
    report, and [clear_cells_detected] is the number of cells equal to
    -1. *)
Theorem counters_match_matrix (sweeps : nat) :
  Forall (fun g =>
            targets_hit g = report_targets_hit g /\
            clear_cells_detected g = Np.sum_eq (result_matrix g) (-1))
    (glob (run_world (scan sweeps initial_world)) ::
     past (glob initial_world) (run_world (scan sweeps initial_world))).
Proof.
  eapply Forall_impl; [exact (run_globals_ok sweeps)|].
  intros g (_ & _ & Hcount). exact Hcount.
Qed.

(** ** Further properties of the scan *)

Lemma sum_list_with_eq_inv {A B} (f : A -> Z) (g : B -> Z)
    (l1 : list A) (l2 : list B) :
  length l1 = length l2 ->
  (forall i a b, l1 !! i = Some a -> l2 !! i = Some b -> f a <= g b) ->
  Np.sum_list_with f l1 = Np.sum_list_with g l2 ->
  forall i a b, l1 !! i = Some a -> l2 !! i = Some b -> f a = g b.
Proof.
  revert l2. induction l1 as [|x l1 IH]; intros [|y l2] Hlen Hle Hsum i a b Ha Hb;
    simpl in Hlen; try (exfalso; lia).
  - destruct i; discriminate.
  - pose proof (Hle 0%nat x y eq_refl eq_refl) as Hxy.
    pose proof (sum_list_with_le f g l1 l2 ltac:(lia) (fun j => Hle (S j)))
      as Htl.
    change (f x + Np.sum_list_with f l1 = g y + Np.sum_list_with g l2) in Hsum.
    destruct i as [|i].
    + injection Ha as <-. injection Hb as <-. lia.
    + apply (IH l2 ltac:(lia) (fun j => Hle (S j)) ltac:(lia) i); assumption.
Qed.

(** Two matrices of one shape, one below the other cell by cell and with
    the same sum, agree cell by cell. *)
Lemma sum_with_eq_inv (f g : Z -> Z) (a b : Np.matrix) (n m : nat) :
  Np.has_shape a n m -> Np.has_shape b n m ->
  (forall r c x y, Np.getitem a r c = Some x -> Np.getitem b r c = Some y ->
                   f x <= g y) ->
  Np.sum_with f a = Np.sum_with g b ->
  forall r c x y, Np.getitem a r c = Some x -> Np.getitem b r c = Some y ->
                  f x = g y.
Proof.
  intros [Han Ham] [Hbn Hbm] Hle Hsum r c x y
    (ra & Hra & Hx)%getitem_Some (rb & Hrb & Hy)%getitem_Some.
  rewrite Forall_lookup in Ham, Hbm.
  assert (Hrows : forall i ra' rb', a !! i = Some ra' -> b !! i = Some rb' ->
            length ra' = length rb' /\
            forall j x' y', ra' !! j = Some x' -> rb' !! j = Some y' ->
                            f x' <= g y').
  { intros i ra' rb' Hi Hi'. split.
    - rewrite (Ham i ra' Hi), (Hbm i rb' Hi'). reflexivity.
    - intros j x' y' Hx' Hy'. apply (Hle i j); apply getitem_Some; eauto. }
  assert (Hrow : Np.sum_list_with f ra = Np.sum_list_with g rb).
  { apply (sum_list_with_eq_inv (Np.sum_list_with f) (Np.sum_list_with g) a b)
      with (i := r); try assumption; [congruence|].
    intros i ra' rb' Hi Hi'. destruct (Hrows i ra' rb' Hi Hi') as [Hl Hp].
    apply sum_list_with_le; assumption. }
  destruct (Hrows r ra rb Hra Hrb) as [Hl Hp].
  exact (sum_list_with_eq_inv f g ra rb Hl Hp Hrow c x y Hx Hy).
Qed.

Lemma sum_list_with_nonneg {A} (f : A -> Z) (l : list A) :
  (forall a, 0 <= f a) -> 0 <= Np.sum_list_with f l.
Proof.
  intros Hf. induction l as [|a l IH]; [reflexivity|].
  change (0 <= f a + Np.sum_list_with f l). specialize (Hf a). lia.
Qed.

Lemma sum_eq_nonneg (a : Np.matrix) (v : Z) : 0 <= Np.sum_eq a v.
Proof.
  unfold Np.sum_eq, Np.sum_with. apply sum_list_with_nonneg. intros row.
  apply sum_list_with_nonneg. intros x. destruct (x =? v); lia.
Qed.

(** A Clear cell lies on a cell without target, a Hit cell on a target. *)
Lemma clear_below_empty (g : globals) (r c : nat) (x y : Z) :
  classified_ok g ->
  Np.getitem (result_matrix g) r c = Some x ->
  Np.getitem target_matrix r c = Some y ->
  (if x =? -1 then 1 else 0) <= (if y =? 0 then 1 else 0).
Proof.
  intros Hclass Hx Hy. destruct (Z.eqb_spec x (-1)) as [->|Hne].
  - destruct (Hclass r c (-1) Hx) as [H0|[(H1 & _)|(_ & t & Ht & Hb)]];
      try discriminate.
    rewrite Hy in Ht. injection Ht as <-.
    unfold Py.bool_of in Hb. destruct (y =? 0); [lia | discriminate].
  - destruct (y =? 0); lia.
Qed.

Lemma hit_below_target (g : globals) (r c : nat) (x y : Z) :
  classified_ok g ->
  Np.getitem (result_matrix g) r c = Some x ->
  Np.getitem target_matrix r c = Some y -> (y = 0 \/ y = 1) ->
  (if x =? 1 then 1 else 0) <= (if y =? 1 then 1 else 0).
Proof.
  intros Hclass Hx Hy H01. destruct (Z.eqb_spec x 1) as [->|Hne].
  - destruct (Hclass r c 1 Hx) as [H0|[(_ & t & Ht & Hb)|(H1 & _)]];
      try discriminate.
    rewrite Hy in Ht. injection Ht as <-.
    destruct H01 as [->| ->]; [discriminate | reflexivity].
  - destruct (y =? 1); lia.
Qed.

Lemma globals_ok_hit_bound (g : globals) :
  placement_ok target_matrix -> globals_ok g -> targets_hit g <= target_count.
Proof.
  intros (Hts & H01 & <-) (Hshape & Hclass & -> & _). unfold Np.sum_eq.
  apply (sum_with_le _ _ _ _ grid_dim grid_dim Hshape Hts).
  intros r c x y Hx Hy. apply (hit_below_target g r c x y Hclass Hx Hy).
  exact (getitem_Forall _ _ _ _ _ H01 Hy).
Qed.

(** Once the scan is complete, the matrix tells the ground truth apart. *)
Lemma complete_cells (g : globals) :
  placement_ok target_matrix -> globals_ok g -> scan_complete g = true ->
  (forall r c, Np.getitem target_matrix r c = Some 0 ->
               Np.getitem (result_matrix g) r c = Some (-1)) /\
  (forall r c, Np.getitem (result_matrix g) r c = Some 0 ->
               Np.getitem target_matrix r c = Some 1) /\
  clear_cells_detected g = cell_count - target_count.
Proof.
  intros Hplace Hg Hc.
  pose proof (globals_ok_clear_bound g Hplace Hg) as Hle.
  apply scan_complete_true in Hc.
  assert (Heq : clear_cells_detected g = cell_count - target_count) by lia.
  destruct Hg as (Hshape & Hclass & _ & Hclear).
  destruct Hplace as (Hts & H01 & Hcount).
  assert (Hcells : forall r c x y,
            Np.getitem (result_matrix g) r c = Some x ->
            Np.getitem target_matrix r c = Some y ->
            (if x =? -1 then 1 else 0) = (if y =? 0 then 1 else 0)).
  { apply (sum_with_eq_inv _ _ _ _ grid_dim grid_dim Hshape Hts).
    - intros r c x y Hx Hy. exact (clear_below_empty g r c x y Hclass Hx Hy).
    - fold (Np.sum_eq (result_matrix g) (-1)). fold (Np.sum_eq target_matrix 0).
      rewrite (placed_zero_count target_matrix (conj Hts (conj H01 Hcount))).
      lia. }
  split; [|split; [|exact Heq]].
  - intros r c Hy.
    destruct (getitem_shape_lt _ _ _ _ _ _ Hts Hy) as [Hr Hcl].
    destruct (getitem_in_shape _ _ _ r c Hshape Hr Hcl) as [x Hx].
    specialize (Hcells r c x 0 Hx Hy).
    change ((if x =? -1 then 1 else 0) = 1) in Hcells.
    destruct (Z.eqb_spec x (-1)) as [Hm|Hne]; [|discriminate].
    rewrite Hm in Hx. exact Hx.
  - intros r c Hx.
    destruct (getitem_shape_lt _ _ _ _ _ _ Hshape Hx) as [Hr Hcl].
    destruct (getitem_in_shape _ _ _ r c Hts Hr Hcl) as [y Hy].
    specialize (Hcells r c 0 y Hx Hy).
    change (0 = (if y =? 0 then 1 else 0)) in Hcells.
    destruct (getitem_Forall _ _ _ _ _ H01 Hy) as [Hy0|Hy1].
    + rewrite Hy0 in Hcells. discriminate.
    + rewrite Hy1 in Hy. exact Hy.
Qed.

(** With the scan complete every cell is settled: the cells without target
    are the Clear ones, and a cell with a target is Unknown or Hit. *)
Lemma complete_cells_exact (g : globals) :
  placement_ok target_matrix -> globals_ok g -> scan_complete g = true ->
  (forall r c, Np.getitem target_matrix r c = Some 0 <->
               Np.getitem (result_matrix g) r c = Some (-1)) /\
  (forall r c, Np.getitem target_matrix r c = Some 1 <->
               Np.getitem (result_matrix g) r c = Some 0 \/
               Np.getitem (result_matrix g) r c = Some 1) /\
  (forall r c, (r < grid_dim)%nat -> (c < grid_dim)%nat ->
     exists t x,
       Np.getitem target_matrix r c = Some t /\
       Np.getitem (result_matrix g) r c = Some x /\
       (t = 0 /\ x = -1 \/ t = 1 /\ (x = 0 \/ x = 1))).
Proof.
  intros Hplace Hg Hc.
  destruct (complete_cells g Hplace Hg Hc) as (Hempty & Hunknown & _).
  destruct Hg as (Hshape & Hclass & _). destruct Hplace as (Hts & H01 & _).
  assert (Hall : forall r c, (r < grid_dim)%nat -> (c < grid_dim)%nat ->
            exists t x,
              Np.getitem target_matrix r c = Some t /\
              Np.getitem (result_matrix g) r c = Some x /\
              (t = 0 /\ x = -1 \/ t = 1 /\ (x = 0 \/ x = 1))).
  { intros r c Hr Hcl.
    destruct (getitem_in_shape _ _ _ r c Hts Hr Hcl) as [t Ht].
    destruct (getitem_in_shape _ _ _ r c Hshape Hr Hcl) as [x Hx].
    exists t, x. split; [exact Ht|]. split; [exact Hx|].
    destruct (getitem_Forall _ _ _ _ _ H01 Ht) as [Ht0|Ht1].
    - left. split; [exact Ht0|]. rewrite Ht0 in Ht.
      pose proof (Hempty r c Ht) as Hm. rewrite Hx in Hm.
      injection Hm as Hm. exact Hm.
    - right. split; [exact Ht1|].
      destruct (Hclass r c x Hx) as [H0|[(H1 & _)|(_ & t' & Ht' & Hb)]];
        [left; exact H0 | right; exact H1 |].
      rewrite Ht in Ht'. injection Ht' as Ht'. rewrite <- Ht', Ht1 in Hb.
      discriminate Hb. }
  split; [|split; [|exact Hall]].
  - intros r c. split; [apply Hempty|]. intros Hx.
    destruct (getitem_shape_lt _ _ _ _ _ _ Hshape Hx) as [Hr Hcl].
    destruct (Hall r c Hr Hcl) as (t & x & Ht & Hx' & [[Ht0 _]|[_ Hx01]]).
    + rewrite Ht0 in Ht. exact Ht.
    + rewrite Hx in Hx'. injection Hx' as Hx'.
      destruct Hx01 as [H|H]; rewrite H in Hx'; discriminate Hx'.
  - intros r c. split.
    + intros Ht. destruct (getitem_shape_lt _ _ _ _ _ _ Hts Ht) as [Hr Hcl].
      destruct (Hall r c Hr Hcl) as (t & x & Ht' & Hx & [[Ht0 _]|[_ Hx01]]).
      * rewrite Ht in Ht'. injection Ht' as Ht'. rewrite Ht0 in Ht'.
        discriminate Ht'.
      * destruct Hx01 as [H|H]; rewrite H in Hx; [left | right]; exact Hx.
    + intros [Hx|Hx]; [apply Hunknown, Hx|].
      destruct (getitem_shape_lt _ _ _ _ _ _ Hshape Hx) as [Hr Hcl].
      destruct (Hall r c Hr Hcl) as (t & x & Ht & Hx' & [[_ Hm]|[Ht1 _]]).
      * rewrite Hx in Hx'. injection Hx' as Hx'. rewrite Hm in Hx'.
        discriminate Hx'.
      * rewrite Ht1 in Ht. exact Ht.
Qed.
Lemma str_length_append (s1 s2 : string) :
  String.length (String.append s1 s2) =
  (String.length s1 + String.length s2)%nat.
Proof. induction s1 as [|ch s1 IH]; simpl; [reflexivity | rewrite IH; reflexivity]. Qed.

Lemma str_append_empty_r (s : string) : String.append s EmptyString = s.
Proof.
  induction s as [|ch s IH]; [reflexivity|].
  change (String ch (String.append s EmptyString) = String ch s).
  f_equal. exact IH.
Qed.

Lemma str_mul_length (s : string) (n : Z) :
  String.length (Py.str_mul s n) = (Z.to_nat n * String.length s)%nat.
Proof.
  unfold Py.str_mul. induction (Z.to_nat n) as [|k IH]; [reflexivity|].
  cbn [Py.str_mul_nat]. rewrite str_length_append, IH. simpl. reflexivity.
Qed.

Lemma linked_cycle (g0 g : globals) (older : list globals) :
  linked g0 (g :: older) ->
  cycle_executions g = cycle_executions g0 + Z.of_nat (S (length older)).
Proof.
  revert g. induction older as [|g1 older IH]; intros g [Hstep Hrest].
  - destruct Hstep as (_ & _ & _ & _ & _ & _ & _ & Hc). simpl in Hc.
    rewrite Hc. simpl. lia.
  - destruct Hstep as (_ & _ & _ & _ & _ & _ & _ & Hc). simpl in Hc.
    rewrite Hc, (IH g1 Hrest). simpl length. lia.
Qed.

(** What one probe does to the two counters of states that are in order. *)
Lemma probe_step_counters (g1 g2 : globals) :
  globals_ok g1 -> globals_ok g2 -> probe_step g1 g2 ->
  (targets_hit g2 = targets_hit g1 /\
   clear_cells_detected g2 = clear_cells_detected g1) \/
  (targets_hit g2 = targets_hit g1 + 1 /\
   clear_cells_detected g2 = clear_cells_detected g1) \/
  (targets_hit g2 = targets_hit g1 /\
   clear_cells_detected g2 = clear_cells_detected g1 + 1).
Proof.
  intros (_ & _ & Hh1 & Hc1) (_ & _ & Hh2 & Hc2)
    (r & c & v & Hget & Hset & Hv & _).
  rewrite Hh1, Hh2, Hc1, Hc2. unfold Np.sum_eq.
  rewrite !(sum_with_setitem _ _ _ _ _ _ _ Hget Hset).
  destruct Hv as [->|[->| ->]]; simpl; lia.
Qed.

Lemma col_loop_jobs_le (row : nat) (cols : list nat) (w : world) :
  match col_loop row cols w with
  | Ok _ w' | Raise _ w' => (jobs w' <= jobs w + length cols)%nat
  end.
Proof.
  revert w. induction cols as [|col rest IH]; intros w.
  - simpl. lia.
  - cbn [col_loop].
    destruct (Np.getitem (result_matrix (glob w)) row col) as [x|];
      [|simpl; lia].
    destruct (x =? 0).
    2:{ specialize (IH w). destruct (col_loop row rest w); simpl; lia. }
    destruct (Np.getitem target_matrix row col) as [t|]; [|simpl; lia].
    pose proof (probe_cell_effect (Py.bool_of t) w) as Heff.
    destruct (probe_cell (Py.bool_of t) w) as [v w1|e w1].
    2:{ subst w1. simpl. lia. }
    destruct Heff as (_ & _ & Hjobs & _). unfold store_result.
    destruct (Np.setitem (result_matrix (glob w1)) row col v) as [m|];
      [|simpl; lia].
    match goal with
    | |- context [if ?b then _ else _] => destruct b
    end.
    + simpl. lia.
    + match goal with
      | |- context [col_loop row rest ?w2] =>
          specialize (IH w2); destruct (col_loop row rest w2); simpl in *; lia
      end.
Qed.

Lemma row_loop_jobs_le (rows : list nat) (w : world) :
  match row_loop rows w with
  | Ok _ w' | Raise _ w' => (jobs w' <= jobs w + length rows * grid_dim)%nat
  end.
Proof.
  revert w. induction rows as [|row rest IH]; intros w.
  - simpl. lia.
  - cbn [row_loop]. destruct (scan_complete (glob w)); [simpl; lia|].
    pose proof (col_loop_jobs_le row (Py.range grid_dim) w) as Hcol.
    assert (Hlen : length (Py.range grid_dim) = grid_dim) by apply length_seq.
    rewrite Hlen in Hcol. clear Hlen.
    destruct (col_loop row (Py.range grid_dim) w) as [[] w1|e w1];
      [|simpl; lia].
    specialize (IH w1). destruct (row_loop rest w1); simpl length; lia.
Qed.

Lemma scan_jobs_le (sweeps : nat) (w : world) :
  (jobs (run_world (scan sweeps w)) <= jobs w + sweeps * (grid_dim * grid_dim))%nat.
Proof.
  revert w. induction sweeps as [|n IH]; intros w.
  - cbn [scan]. destruct (scan_pending (glob w)); simpl; lia.
  - cbn [scan]. destruct (scan_pending (glob w)); [|simpl; lia].
    pose proof (row_loop_jobs_le (Py.range grid_dim) w) as Hrow.
    assert (Hlen : length (Py.range grid_dim) = grid_dim) by apply length_seq.
    rewrite Hlen in Hrow. clear Hlen.
    destruct (row_loop (Py.range grid_dim) w) as [[] w1|e w1].
    + specialize (IH w1). simpl in *. lia.
    + simpl. lia.
Qed.

Lemma place_loop_drawn (draws : list (nat * nat)) (tm tm' : Np.matrix)
    (placed : Z) :
  place_loop draws tm placed = Placed tm' ->
  (forall r c, Np.getitem tm' r c = Some 1 ->
               Np.getitem tm r c = Some 1 \/ (r, c) ∈ draws) /\
  target_count <= placed + Z.of_nat (length draws) /\
  forall more, place_loop (draws ++ more) tm placed = Placed tm'.
Proof.
  revert tm placed. induction draws as [|[r0 c0] rest IH]; intros tm placed H.
  - cbn [place_loop] in H. destruct (Z.ltb_spec placed target_count);
      [discriminate|]. injection H as <-. split; [auto|]. split; [simpl; lia|].
    intros more. simpl. destruct more as [|d more]; cbn [place_loop];
      destruct (Z.ltb_spec placed target_count); try lia; reflexivity.
  - cbn [place_loop] in H. cbn [app place_loop].
    destruct (Z.ltb_spec placed target_count) as [Hlt|Hge].
    2:{ injection H as <-. split; [auto|]. split; [lia|]. reflexivity. }
    destruct (Np.getitem tm r0 c0) as [x|] eqn:Hget; [|discriminate].
    destruct (x =? 1); cbn [negb] in *.
    + destruct (IH _ _ H) as (Hcells & Hlen & Hmore).
      split; [|split; [simpl length; lia | exact Hmore]].
      intros r c Hrc. destruct (Hcells r c Hrc) as [Hold|Hin]; [auto|].
      right. apply elem_of_cons. auto.
    + destruct (Np.setitem tm r0 c0 1) as [tm1|] eqn:Hset; [|discriminate].
      destruct (IH _ _ H) as (Hcells & Hlen & Hmore).
      split; [|split; [simpl length; lia | exact Hmore]].
      intros r c Hrc. destruct (decide ((r0, c0) = (r, c))) as [Heq|Hne].
      * right. rewrite <- Heq. apply elem_of_cons. auto.
      * destruct (Hcells r c Hrc) as [Hold|Hin].
        -- left. rewrite <- (getitem_setitem_ne _ _ _ _ r c _ Hset Hne).
           exact Hold.
        -- right. apply elem_of_cons. auto.
Qed.

(** ** Further theorems on the scan and the placement *)

(** X1. When the scan has finished on a board whose targets were placed
    by the placement loop, every cell without target is Clear, every cell
    still Unknown holds a target (line 115: "remaining 0s are located
    targets"), and the number reported as located, [target_count] minus
    the hits, is the number of Unknown cells; it lies between 0 and
    [target_count]. *)
Theorem finished_report (sweeps : nat) (w : world)
    (Hplace : placement_ok target_matrix)
    (Hfinished : scan sweeps initial_world = Finished w) :
  (forall r c, Np.getitem target_matrix r c = Some 0 ->
               Np.getitem (result_matrix (glob w)) r c = Some (-1)) /\
  (forall r c, Np.getitem (result_matrix (glob w)) r c = Some 0 ->
               Np.getitem target_matrix r c = Some 1) /\
  clear_cells_detected (glob w) = cell_count - target_count /\
  report_located (glob w) = Np.sum_eq (result_matrix (glob w)) 0 /\
  0 <= report_located (glob w) <= target_count.
Proof.
  destruct initial_world_ok as [Hok Hsync].
  pose proof (scan_ok sweeps initial_world Hok Hsync) as H.
  rewrite Hfinished in H. destruct H as ((Hg & _) & _ & Hc).
  destruct (complete_cells (glob w) Hplace Hg Hc) as (Hempty & Hunknown & Hclear).
  pose proof (globals_ok_cells (glob w) Hg) as Hcells.
  pose proof (globals_ok_hit_bound (glob w) Hplace Hg) as Hhit.
  pose proof (sum_eq_nonneg (result_matrix (glob w)) 1) as Hnn.
  destruct Hg as (_ & _ & Hth & _). unfold report_located, report_targets_hit.
  rewrite <- Hth. repeat split; try assumption; lia.
Qed.

(** X2. In every state of a run on such a board the hits are no more than
    [target_count], so the number reported as located is never
    negative. *)
Theorem scan_hits_bound (sweeps : nat) (Hplace : placement_ok target_matrix) :
  Forall (fun g => 0 <= targets_hit g <= target_count /\
                   0 <= report_located g)
    (glob (run_world (scan sweeps initial_world)) ::
     past (glob initial_world) (run_world (scan sweeps initial_world))).
Proof.
  eapply Forall_impl; [exact (run_globals_ok sweeps)|].
  intros g Hg. simpl in Hg.
  pose proof (globals_ok_hit_bound g Hplace Hg) as Hhit.
  pose proof (sum_eq_nonneg (result_matrix g) 1) as Hnn.
  destruct Hg as (_ & _ & Hth & _). unfold report_located, report_targets_hit.
  rewrite <- Hth in *. lia.
Qed.

(** X3. The progress bar of line 199 has the same length,
    [cell_count - target_count], in every state of a run, and it is all
    '#' exactly in the states in which the scan is complete. *)
Theorem progress_bar_length (sweeps : nat)
    (Hplace : placement_ok target_matrix) :
  Forall (fun g =>
            String.length (progress_bar g) =
              Z.to_nat (cell_count - target_count) /\
            (scan_complete g = true ->
             progress_bar g = Py.str_mul "#" (cell_count - target_count)) /\
            (scan_complete g = false ->
             progress_bar g <> Py.str_mul "#" (cell_count - target_count)))
    (glob (run_world (scan sweeps initial_world)) ::
     past (glob initial_world) (run_world (scan sweeps initial_world))).
Proof.
  eapply Forall_impl; [exact (run_globals_ok sweeps)|].
  intros g Hg. simpl in Hg.
  pose proof (globals_ok_clear_bound g Hplace Hg) as Hle.
  assert (Hnn : 0 <= clear_cells_detected g).
  { destruct Hg as (_ & _ & _ & ->). apply sum_eq_nonneg. }
  assert (Hlen : String.length (progress_bar g) =
                 Z.to_nat (cell_count - target_count)).
  { unfold progress_bar. rewrite str_length_append, !str_mul_length. simpl.
    lia. }
  split; [exact Hlen|]. split.
  - intros Hc. apply scan_complete_true in Hc. unfold progress_bar.
    replace (cell_count - clear_cells_detected g - target_count) with 0 by lia.
    replace (clear_cells_detected g) with (cell_count - target_count) by lia.
    apply str_append_empty_r.
  - intros Hc Heq. apply scan_complete_false in Hc.
    assert (Hdot : String.get (Z.to_nat (clear_cells_detected g))
                     (progress_bar g) = Some "."%char).
    { unfold progress_bar.
      replace (Z.to_nat (clear_cells_detected g))
        with (0 + String.length (Py.str_mul "#" (clear_cells_detected g)))%nat
        by (rewrite str_mul_length; simpl; lia).
      rewrite <- String.append_correct2. unfold Py.str_mul.
      destruct (Z.to_nat (cell_count - clear_cells_detected g - target_count))
        eqn:Hn; [lia | reflexivity]. }
    rewrite Heq in Hdot. clear - Hdot. unfold Py.str_mul in Hdot.
    revert Hdot. generalize (Z.to_nat (clear_cells_detected g)).
    induction (Z.to_nat (cell_count - target_count)) as [|k IH]; intros n Hn.
    + destruct n; discriminate.
    + destruct n as [|n]; [discriminate|]. exact (IH n Hn).
Qed.

(** X4. The recorded states of a run are numbered by [cycle_executions]:
    the k-th probe leaves [cycle_executions = k]; and one probe leaves
    the two other counters as they were or adds one to exactly one of
    them. *)
Theorem history_steps (sweeps : nat) (newer older : list globals) (g : globals)
    (Hhist : history (run_world (scan sweeps initial_world)) =
             newer ++ g :: older) :
  cycle_executions g = Z.of_nat (S (length older)) /\
  ((targets_hit g = targets_hit (hd (glob initial_world) older) /\
    clear_cells_detected g =
      clear_cells_detected (hd (glob initial_world) older)) \/
   (targets_hit g = targets_hit (hd (glob initial_world) older) + 1 /\
    clear_cells_detected g =
      clear_cells_detected (hd (glob initial_world) older)) \/
   (targets_hit g = targets_hit (hd (glob initial_world) older) /\
    clear_cells_detected g =
      clear_cells_detected (hd (glob initial_world) older) + 1)).
Proof.
  destruct (run_ok sweeps) as (_ & Hpast & Hlink & _).
  unfold past in Hpast. rewrite Hhist in Hlink, Hpast.
  apply linked_suffix in Hlink. split.
  - rewrite (linked_cycle _ _ _ Hlink). simpl. lia.
  - rewrite <- app_assoc in Hpast. apply Forall_app in Hpast as [_ Hpast].
    simpl in Hpast. apply Forall_cons in Hpast as [Hg Hold].
    apply probe_step_counters; [|exact Hg|exact (proj1 Hlink)].
    destruct older as [|g1 older]; simpl in *.
    + apply Forall_cons in Hold as [H0 _]. exact H0.
    + apply Forall_cons in Hold as [H1 _]. exact H1.
Qed.

(** X5. A sweep probes each cell at most once: after any number of sweeps
    the jobs run are no more than that number times the cells of the
    board, whatever the backend returns. *)
Theorem scan_jobs_bound (sweeps : nat) :
  (jobs (run_world (scan sweeps initial_world)) <=
   sweeps * (grid_dim * grid_dim))%nat /\
  cycle_executions (glob (run_world (scan sweeps initial_world))) <=
    Z.of_nat sweeps * cell_count.
Proof.
  pose proof (scan_jobs_le sweeps initial_world) as H. simpl in H.
  split; [exact H|].
  destruct (run_ok sweeps) as (_ & _ & _ & _ & ->). unfold cell_count. nia.
Qed.

(** X7. A placement that has ended put its targets on drawn cells only,
    used at least [target_count] draws, and is not changed by draws that
    come after it. *)
Theorem place_only_drawn (draws : list (nat * nat)) (tm : Np.matrix)
    (Hplaced : place draws = Placed tm) :
  (forall r c, Np.getitem tm r c = Some 1 -> (r, c) ∈ draws) /\
  target_count <= Z.of_nat (length draws) /\
  forall more, place (draws ++ more) = Placed tm.
Proof.
  destruct (place_loop_drawn draws _ tm 0 Hplaced) as (Hcells & Hlen & Hmore).
  split; [|split; [lia | exact Hmore]].
  intros r c Hrc. destruct (Hcells r c Hrc) as [Hzero|Hin]; [|exact Hin].
  apply getitem_zeros in Hzero. discriminate.
Qed.

End Run.

(** C9. On a 3 by 3 board with 9 targets the condition holds in the
    initial state: whatever the sweeps allowed, the backends and the
    target matrix, the scan finishes in its initial state, with no probe
    made, no job run and the nine cells Unknown. *)
Theorem all_targets_no_probe (local_sim : bool)
    (transpile : QuantumCircuit -> QuantumCircuit)
    (sim_backend sampler_inst : nat -> QuantumCircuit -> list string)
    (target_matrix : Np.matrix) (sweeps : nat) :
  scan_complete 3 9 (glob (initial_world 3)) = true /\
  scan 3 9 local_sim transpile sim_backend sampler_inst target_matrix sweeps
       (initial_world 3) = Finished (initial_world 3) /\
  cycle_executions (glob (initial_world 3)) = 0 /\
  jobs (initial_world 3) = 0%nat /\
  history (initial_world 3) = [] /\
  result_matrix (glob (initial_world 3)) = [[0; 0; 0]; [0; 0; 0]; [0; 0; 0]] /\
  Np.sum_eq (result_matrix (glob (initial_world 3))) 0 = 9.
Proof.
  split; [reflexivity|]. split; [destruct sweeps; reflexivity|].
  repeat split.
Qed.

(** ** The theorems at work on the small board *)

Lemma demo_placement_ok : placement_ok 3 1 Demo.target_matrix.
Proof.
  split; [|split].
  - split; [reflexivity|]. repeat (constructor; try reflexivity).
  - repeat (constructor; try (left; reflexivity); try (right; reflexivity)).
  - reflexivity.
Defined.

Lemma demo_valid_config : valid_config 3 3.
Proof.
  unfold valid_config, min_grid_dim, max_grid_dim, cell_count. simpl. lia.
Defined.

Lemma demo_draws_in_range : Forall (draw_in_range 3) Demo.draws.
Proof. repeat constructor; simpl; lia. Defined.

Lemma probe_target_present_witness :
  exists w',
    probe_cell true Demo.transpile Demo.backend Demo.backend true
               (initial_world 3) = Ok 1 w'.
Proof.
  destruct (probe_target_present true Demo.transpile Demo.backend Demo.backend
              (initial_world 3)) as (_ & _ & _ & H & _).
  apply (H Demo.excited_once []). vm_compute. reflexivity.
Defined.

Lemma probe_target_absent_witness :
  exists w',
    probe_cell true Demo.transpile Demo.backend Demo.backend false
               (initial_world 3) = Ok (-1) w'.
Proof.
  destruct (probe_target_absent true Demo.transpile Demo.backend Demo.backend
              (initial_world 3)) as (_ & _ & _ & _ & _ & H & _).
  apply (H true []). vm_compute. reflexivity.
Defined.



Lemma scan_counters_invariant_witness :
  placement_ok 3 1 Demo.target_matrix /\
  Forall (fun g =>
            clear_cells_detected g + targets_hit g +
            Np.sum_eq (result_matrix g) 0 = cell_count 3 /\
            clear_cells_detected g <= cell_count 3 - 1)
    (glob (run_world (scan 3 1 true Demo.transpile Demo.backend Demo.backend
                           Demo.target_matrix 2 (initial_world 3))) ::
     past (glob (initial_world 3))
       (run_world (scan 3 1 true Demo.transpile Demo.backend Demo.backend
                        Demo.target_matrix 2 (initial_world 3)))).
Proof.
  split; [exact demo_placement_ok|].
  pose proof (scan_counters_invariant 3 1 true Demo.transpile Demo.backend
                Demo.backend Demo.target_matrix 2 demo_placement_ok) as H.
  exact H.
Defined.

Lemma place_exact_witness :
  valid_config 3 3 /\
  (Np.has_shape [[1; 0; 0]; [0; 0; 1]; [0; 0; 1]] 3 3 /\
   Forall (Forall (fun x => x = 0 \/ x = 1)) [[1; 0; 0]; [0; 0; 1]; [0; 0; 1]] /\
   Np.sum_eq [[1; 0; 0]; [0; 0; 1]; [0; 0; 1]] 1 = 3 /\
   Np.sum_eq [[1; 0; 0]; [0; 0; 1]; [0; 0; 1]] 0 = cell_count 3 - 3) /\
  exists tm, place 3 3 Demo.draws = Placed tm.
Proof.
  split; [exact demo_valid_config|].
  destruct (place_exact 3 3 Demo.draws demo_valid_config) as (H & _ & _ & Hend).
  split; [apply H; reflexivity|].
  apply (Hend demo_draws_in_range). vm_compute. discriminate.
Defined.

Lemma scan_classification_sound_witness :
  exists t, Np.getitem Demo.target_matrix 0 0 = Some t /\ Py.bool_of t = true.
Proof.
  pose proof (scan_classification_sound 3 1 true Demo.transpile Demo.backend
                Demo.backend Demo.target_matrix 5) as H.
  apply Forall_cons in H as [H _]. destruct (H 0%nat 0%nat) as [Hhit _].
  apply Hhit. vm_compute. reflexivity.
Defined.


(** The scan on the small board: the target is hit by the first probe,
    the eight other cells are confirmed Clear in the course of five
    sweeps, and the scan then stops, after 17 probes. *)
Example demo_scan_finishes :
  exists w,
    scan 3 1 true Demo.transpile Demo.backend Demo.backend Demo.target_matrix 5
         (initial_world 3) = Finished w /\
    result_matrix (glob w) = [[1; -1; -1]; [-1; -1; -1]; [-1; -1; -1]] /\
    targets_hit (glob w) = 1 /\ clear_cells_detected (glob w) = 8 /\
    cycle_executions (glob w) = 17 /\ jobs w = 17%nat /\
    length (history w) = 17%nat.
Proof. eexists. split; [vm_compute; reflexivity|]. repeat split. Qed.

(** After four sweeps the same scan is still running, one cell short. *)
Example demo_scan_running :
  exists w,
    scan 3 1 true Demo.transpile Demo.backend Demo.backend Demo.target_matrix 4
         (initial_world 3) = Running w /\
    clear_cells_detected (glob w) = 7.
Proof. eexists. split; [vm_compute; reflexivity|]. reflexivity. Qed.

(** A backend that returns no shot at all makes the first probe fail. *)
Example demo_scan_crashes :
  exists w,
    scan 3 1 true Demo.transpile (fun _ _ => []) Demo.backend
         Demo.target_matrix 1 (initial_world 3) = Crashed IndexError w /\
    cycle_executions (glob w) = 1 /\ history w = [].
Proof. eexists. split; [vm_compute; reflexivity|]. split; reflexivity. Qed.

Example demo_place :
  place 3 3 Demo.draws = Placed [[1; 0; 0]; [0; 0; 1]; [0; 0; 1]] /\
  place 3 3 [(0, 0); (0, 0); (1, 2)]%nat =
    Drawing [[1; 0; 0]; [0; 0; 1]; [0; 0; 0]] 2 /\
  place 3 3 [(0, 0); (0, 3)]%nat = PlaceError IndexError.
Proof. repeat split. Qed.

(** ** Further theorems: the circuits, the backends and the start-up *)

Lemma rotations_flat_map (l : list nat) :
  List.filter (fun i => negb (is_measure i))
    (flat_map (fun i => [Ry (2 * rotation_angle) 0; Measure 0 i]) l) =
  replicate (length l) (Ry (2 * rotation_angle) 0).
Proof.
  induction l as [|i l IH]; [reflexivity|].
  cbn [flat_map app List.filter is_measure negb length replicate].
  f_equal. exact IH.
Qed.

Lemma measured_flat_map (l : list nat) :
  measured_clbits
    (flat_map (fun i => [Ry (2 * rotation_angle) 0; Measure 0 i]) l) = l.
Proof.
  induction l as [|i l IH]; [reflexivity|].
  cbn [flat_map app measured_clbits]. f_equal. exact IH.
Qed.

Lemma rotations_replicate (n : nat) (tail : list instruction) :
  List.filter (fun i => negb (is_measure i))
    (replicate n (Ry (2 * rotation_angle) 0) ++ tail) =
  replicate n (Ry (2 * rotation_angle) 0) ++
  List.filter (fun i => negb (is_measure i)) tail.
Proof.
  induction n as [|n IH]; [reflexivity|].
  cbn [replicate app List.filter is_measure negb]. f_equal. exact IH.
Qed.

Lemma measured_replicate (n : nat) (tail : list instruction) :
  measured_clbits (replicate n (Ry (2 * rotation_angle) 0) ++ tail) =
  measured_clbits tail.
Proof. induction n as [|n IH]; [reflexivity | exact IH]. Qed.

Lemma flat_map_pairs_lookup (l : list nat) (i x : nat) :
  l !! i = Some x ->
  flat_map (fun i => [Ry (2 * rotation_angle) 0; Measure 0 i]) l !! (2 * i)%nat =
    Some (Ry (2 * rotation_angle) 0) /\
  flat_map (fun i => [Ry (2 * rotation_angle) 0; Measure 0 i]) l !! S (2 * i) =
    Some (Measure 0 x).
Proof.
  revert i. induction l as [|y l IH]; intros [|i] Hi; try discriminate.
  - injection Hi as ->. split; reflexivity.
  - assert (Hdouble : (2 * S i = S (S (2 * i)))%nat)
      by (rewrite Nat.mul_succ_r, Nat.add_comm; reflexivity).
    rewrite Hdouble. cbn [flat_map app]. exact (IH i Hi).
Qed.

Lemma flat_map_pairs_length (l : list nat) :
  length (flat_map (fun i => [Ry (2 * rotation_angle) 0; Measure 0 i]) l) =
  (2 * length l)%nat.
Proof.
  induction l as [|y l IH]; [reflexivity|].
  cbn [flat_map app length]. rewrite IH.
  rewrite Nat.mul_succ_r, Nat.add_comm. reflexivity.
Qed.

(** X8. The two circuits apply the same rotations, [cycle_count] times
    [Ry(2 * rotation_angle)], and differ by their reads only.  The target
    circuit is rotation, read, rotation, read and so on: its instruction
    [2 * i] is the rotation and its instruction [2 * i + 1] the read into
    bit [i], for each [i] below [cycle_count], and nothing else.  The
    other circuit is the [cycle_count] rotations followed by its one
    read, into bit 0, as its last instruction. *)
Theorem circuits_differ_by_reads :
  data target_qc =
    flat_map (fun i => [Ry (2 * rotation_angle) 0; Measure 0 i])
      (Py.range cycle_count) /\
  length (data target_qc) = (2 * cycle_count)%nat /\
  (forall i, (i < cycle_count)%nat ->
     data target_qc !! (2 * i)%nat = Some (Ry (2 * rotation_angle) 0) /\
     data target_qc !! S (2 * i) = Some (Measure 0 i)) /\
  data clear_qc =
    replicate cycle_count (Ry (2 * rotation_angle) 0) ++ [Measure 0 0] /\
  length (data clear_qc) = S cycle_count /\
  (forall i, (i < cycle_count)%nat ->
     data clear_qc !! i = Some (Ry (2 * rotation_angle) 0)) /\
  data clear_qc !! cycle_count = Some (Measure 0 0) /\
  rotations target_qc = rotations clear_qc /\
  rotations clear_qc = replicate cycle_count (Ry (2 * rotation_angle) 0) /\
  measured_clbits (data target_qc) = Py.range cycle_count /\
  NoDup (measured_clbits (data target_qc)) /\
  measured_clbits (data clear_qc) = [0%nat].
Proof.
  assert (Ht : rotations target_qc =
               replicate cycle_count (Ry (2 * rotation_angle) 0)).
  { unfold rotations. rewrite target_qc_data, rotations_flat_map.
    unfold Py.range. rewrite length_seq. reflexivity. }
  assert (Hc : rotations clear_qc =
               replicate cycle_count (Ry (2 * rotation_angle) 0)).
  { unfold rotations. rewrite clear_qc_data, rotations_replicate.
    cbn [List.filter is_measure negb]. apply app_nil_r. }
  assert (Hm : measured_clbits (data target_qc) = Py.range cycle_count).
  { rewrite target_qc_data. apply measured_flat_map. }
  split; [exact target_qc_data|]. split.
  { rewrite target_qc_data, flat_map_pairs_length. unfold Py.range.
    rewrite length_seq. reflexivity. }
  split.
  { intros i Hi. rewrite target_qc_data. apply flat_map_pairs_lookup.
    unfold Py.range. apply lookup_seq. split; [reflexivity | exact Hi]. }
  split; [exact clear_qc_data|]. split.
  { rewrite clear_qc_data, length_app, length_replicate.
    cbn [length]. apply Nat.add_1_r. }
  split.
  { intros i Hi. rewrite clear_qc_data, lookup_app_l.
    - apply lookup_replicate. auto.
    - rewrite length_replicate. exact Hi. }
  split.
  { rewrite clear_qc_data. apply list_lookup_middle.
    rewrite length_replicate. reflexivity. }
  split; [congruence|]. split; [exact Hc|]. split; [exact Hm|]. split.
  - rewrite Hm. apply NoDup_seq.
  - rewrite clear_qc_data, measured_replicate. reflexivity.
Qed.

Lemma probe_cell_ext (ls1 ls2 : bool)
    (tr1 tr2 : QuantumCircuit -> QuantumCircuit)
    (sb1 si1 sb2 si2 : nat -> QuantumCircuit -> list string) :
  (forall k, backend_memory ls1 sb1 si1 k (comp_target_qc tr1) =
             backend_memory ls2 sb2 si2 k (comp_target_qc tr2)) ->
  (forall k, backend_memory ls1 sb1 si1 k (comp_clear_qc tr1) =
             backend_memory ls2 sb2 si2 k (comp_clear_qc tr2)) ->
  forall has_target w,
    probe_cell ls1 tr1 sb1 si1 has_target w =
    probe_cell ls2 tr2 sb2 si2 has_target w.
Proof.
  intros Htarget Hclear [|] w.
  - rewrite !probe_cell_true, Htarget. reflexivity.
  - rewrite !probe_cell_false, Hclear. reflexivity.
Qed.

Lemma col_loop_ext (grid_dim : nat) (target_count : Z) (ls1 ls2 : bool)
    (tr1 tr2 : QuantumCircuit -> QuantumCircuit)
    (sb1 si1 sb2 si2 : nat -> QuantumCircuit -> list string)
    (tm : Np.matrix) :
  (forall has_target w,
     probe_cell ls1 tr1 sb1 si1 has_target w =
     probe_cell ls2 tr2 sb2 si2 has_target w) ->
  forall row cols w,
    col_loop grid_dim target_count ls1 tr1 sb1 si1 tm row cols w =
    col_loop grid_dim target_count ls2 tr2 sb2 si2 tm row cols w.
Proof.
  intros Hprobe row cols. induction cols as [|col rest IH]; intros w;
    [reflexivity|].
  cbn [col_loop].
  destruct (Np.getitem (result_matrix (glob w)) row col) as [x|]; [|reflexivity].
  destruct (x =? 0); [|apply IH].
  destruct (Np.getitem tm row col) as [t|]; [|reflexivity].
  rewrite Hprobe.
  destruct (probe_cell ls2 tr2 sb2 si2 (Py.bool_of t) w) as [v w1|e w1];
    [|reflexivity].
  destruct (store_result row col v w1) as [[] w2|e w2]; [|reflexivity].
  destruct (scan_complete grid_dim target_count (glob w2)); [reflexivity|].
  apply IH.
Qed.

Lemma row_loop_ext (grid_dim : nat) (target_count : Z) (ls1 ls2 : bool)
    (tr1 tr2 : QuantumCircuit -> QuantumCircuit)
    (sb1 si1 sb2 si2 : nat -> QuantumCircuit -> list string)
    (tm : Np.matrix) :
  (forall has_target w,
     probe_cell ls1 tr1 sb1 si1 has_target w =
     probe_cell ls2 tr2 sb2 si2 has_target w) ->
  forall rows w,
    row_loop grid_dim target_count ls1 tr1 sb1 si1 tm rows w =
    row_loop grid_dim target_count ls2 tr2 sb2 si2 tm rows w.
Proof.
  intros Hprobe rows. induction rows as [|row rest IH]; intros w;
    [reflexivity|].
  cbn [row_loop].
  destruct (scan_complete grid_dim target_count (glob w)); [reflexivity|].
  rewrite (col_loop_ext grid_dim target_count ls1 ls2 tr1 tr2 sb1 si1 sb2 si2
             tm Hprobe).
  destruct (col_loop grid_dim target_count ls2 tr2 sb2 si2 tm row
              (Py.range grid_dim) w) as [[] w1|e w1]; [apply IH | reflexivity].
Qed.

(** X9. The scan uses its backends only to run the two compiled circuits:
    two settings whose jobs on these two circuits return the same memory
    give the same run.  So with [local_sim] true the hardware sampler is
    never used, and with [local_sim] false the simulator is not. *)
Theorem scan_backend_ext (grid_dim : nat) (target_count : Z) (ls1 ls2 : bool)
    (tr1 tr2 : QuantumCircuit -> QuantumCircuit)
    (sb1 si1 sb2 si2 : nat -> QuantumCircuit -> list string)
    (tm : Np.matrix) (sweeps : nat) (w : world)
    (Htarget : forall k,
       backend_memory ls1 sb1 si1 k (comp_target_qc tr1) =
       backend_memory ls2 sb2 si2 k (comp_target_qc tr2))
    (Hclear : forall k,
       backend_memory ls1 sb1 si1 k (comp_clear_qc tr1) =
       backend_memory ls2 sb2 si2 k (comp_clear_qc tr2)) :
  scan grid_dim target_count ls1 tr1 sb1 si1 tm sweeps w =
  scan grid_dim target_count ls2 tr2 sb2 si2 tm sweeps w.
Proof.
  pose proof (probe_cell_ext ls1 ls2 tr1 tr2 sb1 si1 sb2 si2 Htarget Hclear)
    as Hprobe.
  revert w. induction sweeps as [|n IH]; intros w; [reflexivity|].
  cbn [scan].
  destruct (scan_pending grid_dim target_count (glob w)); [|reflexivity].
  rewrite (row_loop_ext grid_dim target_count ls1 ls2 tr1 tr2 sb1 si1 sb2 si2
             tm Hprobe).
  destruct (row_loop grid_dim target_count ls2 tr2 sb2 si2 tm
              (Py.range grid_dim) w) as [[] w1|e w1]; [apply IH | reflexivity].
Qed.

(** *** The start-up *)

Lemma dim_refused_false (d : Z) :
  dim_refused d = false -> min_grid_dim <= d <= max_grid_dim.
Proof.
  unfold dim_refused. intros H. apply orb_false_iff in H as [Hlo Hhi].
  apply Z.ltb_ge in Hlo. rewrite Z.gtb_ltb in Hhi. apply Z.ltb_ge in Hhi. lia.
Qed.

Lemma targets_refused_false (t cell_count : Z) :
  targets_refused t cell_count = false -> 1 <= t <= cell_count.
Proof.
  unfold targets_refused. intros H. apply orb_false_iff in H as [Hlo Hhi].
  apply Z.ltb_ge in Hlo. rewrite Z.gtb_ltb in Hhi. apply Z.ltb_ge in Hhi. lia.
Qed.

Lemma ask_grid_dim_accepts (py_int : string -> option Z)
    (inputs rest : list string) (d : Z) :
  ask_grid_dim py_int inputs = Some (d, rest) ->
  min_grid_dim <= d <= max_grid_dim.
Proof.
  induction inputs as [|line inputs IH]; [discriminate|]. cbn [ask_grid_dim].
  destruct (py_int line) as [d'|]; [|exact IH].
  destruct (dim_refused d') eqn:Hd; [exact IH|].
  destruct (d' =? 0); [exact IH|].
  intros H. injection H as <- _. apply dim_refused_false, Hd.
Qed.

Lemma ask_target_count_accepts (py_int : string -> option Z)
    (random_randint : Z -> Z -> Z) (cell_count : Z)
    (inputs rest : list string) (t : Z) :
  randint_in_range random_randint -> 1 <= cell_count ->
  ask_target_count py_int random_randint cell_count inputs = Some (t, rest) ->
  1 <= t <= cell_count.
Proof.
  intros Hrand Hcc.
  induction inputs as [|inp inputs IH]; [discriminate|].
  cbn [ask_target_count]. destruct (String.eqb inp "").
  - destruct (random_randint 1 cell_count =? 0); [exact IH|].
    intros H. injection H as <- _. apply Hrand, Hcc.
  - destruct (py_int inp) as [t'|]; [|exact IH].
    destruct (targets_refused t' cell_count) eqn:Ht; [exact IH|].
    destruct (t' =? 0); [exact IH|].
    intros H. injection H as <- _. apply targets_refused_false, Ht.
Qed.

Lemma valid_config_of (d t : Z) :
  min_grid_dim <= d <= max_grid_dim -> 1 <= t <= d ^ 2 ->
  valid_config (Z.to_nat d) t.
Proof.
  unfold valid_config, cell_count, min_grid_dim, max_grid_dim.
  intros Hd Ht. rewrite Z2Nat.id by lia. lia.
Qed.

Lemma configure_accepts (py_int : string -> option Z)
    (str_lower : string -> string) (random_randint : Z -> Z -> Z)
    (argv inputs : list string) (d t : Z) (l : bool) :
  randint_in_range random_randint ->
  configure py_int str_lower random_randint argv inputs = Configured d t l ->
  min_grid_dim <= d <= max_grid_dim /\ 1 <= t <= d ^ 2.
Proof.
  intros Hrand Hconf.
  assert (Hint : forall inputs,
            interactive py_int str_lower random_randint inputs =
              Configured d t l ->
            min_grid_dim <= d <= max_grid_dim /\ 1 <= t <= d ^ 2).
  { clear Hconf inputs. intros inputs. unfold interactive.
    destruct (ask_grid_dim py_int inputs) as [[d' in1]|] eqn:Hd;
      [|discriminate].
    apply ask_grid_dim_accepts in Hd.
    destruct (ask_target_count py_int random_randint (d' ^ 2) in1)
      as [[t' in2]|] eqn:Ht; [|discriminate].
    apply ask_target_count_accepts in Ht;
      [|exact Hrand | unfold min_grid_dim in Hd; nia].
    destruct (ask_local_sim str_lower in2) as [[l' in3]|]; [|discriminate].
    intros H. injection H as <- <- _. auto. }
  destruct argv as [|script [|arg1 rest]]; cbn [configure] in Hconf;
    [exact (Hint _ Hconf) | exact (Hint _ Hconf) |].
  clear Hint. unfold command_line in Hconf.
  destruct (String.eqb arg1 "info"); [discriminate|].
  destruct (4 <? 2 + length rest)%nat; [discriminate|].
  destruct (py_int arg1) as [d'|]; [|discriminate].
  destruct (dim_refused d') eqn:Hd; [discriminate|].
  apply dim_refused_false in Hd.
  destruct rest as [|arg2 rest2].
  - injection Hconf as <- <- _. split; [exact Hd|].
    apply Hrand. unfold min_grid_dim in Hd. nia.
  - destruct (py_int arg2) as [t'|]; [|discriminate].
    destruct (targets_refused t' (d' ^ 2)) eqn:Ht; [discriminate|].
    apply targets_refused_false in Ht.
    destruct rest2 as [|arg3 [|arg4 rest4]].
    + injection Hconf as <- <- _. auto.
    + destruct (py_int arg3); [|discriminate].
      injection Hconf as <- <- _. auto.
    + injection Hconf as <- <- _. auto.
Qed.

(** X10. Whichever way the parameters are given, on the command line or
    at the prompts, a run that gets past the start-up has a dimension
    between [min_grid_dim] and [max_grid_dim] and a target count between 1
    and the number of cells: the configuration the placement loop and the
    scan rely on. *)
Theorem configure_valid (py_int : string -> option Z)
    (str_lower : string -> string) (random_randint : Z -> Z -> Z)
    (argv inputs : list string) (d t : Z) (l : bool)
    (Hrand : randint_in_range random_randint)
    (Hconf : configure py_int str_lower random_randint argv inputs =
             Configured d t l) :
  min_grid_dim <= d <= max_grid_dim /\ 1 <= t <= d ^ 2 /\
  valid_config (Z.to_nat d) t.
Proof.
  destruct (configure_accepts _ _ _ _ _ _ _ _ Hrand Hconf) as [Hd Ht].
  split; [exact Hd|]. split; [exact Ht|]. apply valid_config_of; assumption.
Qed.

(** X11. With parameters on the command line the script never prompts:
    "info" as first parameter exits with code 0 whatever follows, more
    than three parameters exit with code 1, every other exit has code 1,
    and the input lines play no part. *)
Theorem command_line_outcome (py_int : string -> option Z)
    (str_lower : string -> string) (random_randint : Z -> Z -> Z)
    (script arg1 : string) (rest inputs : list string) :
  (arg1 = "info"%string ->
   configure py_int str_lower random_randint (script :: arg1 :: rest) inputs =
   Exit 0) /\
  (arg1 <> "info"%string -> (3 <= length rest)%nat ->
   configure py_int str_lower random_randint (script :: arg1 :: rest) inputs =
   Exit 1) /\
  (forall code,
     configure py_int str_lower random_randint (script :: arg1 :: rest) inputs =
     Exit code ->
     (code = 0 /\ arg1 = "info"%string) \/
     (code = 1 /\ arg1 <> "info"%string)) /\
  configure py_int str_lower random_randint (script :: arg1 :: rest) inputs <>
    EndOfInput /\
  (forall inputs',
     configure py_int str_lower random_randint (script :: arg1 :: rest) inputs' =
     configure py_int str_lower random_randint (script :: arg1 :: rest) inputs).
Proof.
  cbn [configure]. unfold command_line.
  destruct (String.eqb_spec arg1 "info") as [Hinfo|Hinfo].
  - repeat split; auto; try discriminate; try contradiction.
    intros code H. injection H as <-. auto.
  - split; [contradiction|]. split.
    + intros _ Hlen. destruct (Nat.ltb_spec 4 (2 + length rest)); [reflexivity|].
      lia.
    + split; [|split; [|reflexivity]].
      * intros code.
        destruct (4 <? 2 + length rest)%nat;
          [intros H; injection H as <-; auto|].
        destruct (py_int arg1) as [d|]; [|intros H; injection H as <-; auto].
        destruct (dim_refused d); [intros H; injection H as <-; auto|].
        destruct rest as [|arg2 rest2]; [discriminate|].
        destruct (py_int arg2) as [t|]; [|intros H; injection H as <-; auto].
        destruct (targets_refused t (d ^ 2));
          [intros H; injection H as <-; auto|].
        destruct rest2 as [|arg3 [|arg4 rest4]]; try discriminate.
        destruct (py_int arg3); [discriminate|].
        intros H; injection H as <-; auto.
      * destruct (4 <? 2 + length rest)%nat; [discriminate|].
        destruct (py_int arg1) as [d|]; [|discriminate].
        destruct (dim_refused d); [discriminate|].
        destruct rest as [|arg2 rest2]; [discriminate|].
        destruct (py_int arg2) as [t|]; [|discriminate].
        destruct (targets_refused t (d ^ 2)); [discriminate|].
        destruct rest2 as [|arg3 [|arg4 rest4]]; try discriminate.
        destruct (py_int arg3); discriminate.
Qed.

(** *** The three prompts, answer by answer *)

Lemma dim_answer_cases (py_int : string -> option Z) (line : string) :
  dim_answer_refused py_int line \/
  exists d, dim_answer_accepted py_int line d.
Proof.
  unfold dim_answer_refused, dim_answer_accepted.
  destruct (py_int line) as [d|]; [|left; exact I].
  destruct (dim_refused d) eqn:Hd; [left; reflexivity|].
  right. exists d. split; [reflexivity | exact Hd].
Qed.

Lemma ask_grid_dim_refused (py_int : string -> option Z) (line : string)
    (rest : list string) :
  dim_answer_refused py_int line ->
  ask_grid_dim py_int (line :: rest) = ask_grid_dim py_int rest.
Proof.
  unfold dim_answer_refused. cbn [ask_grid_dim].
  destruct (py_int line) as [d|]; [|reflexivity].
  intros Hd. rewrite Hd. reflexivity.
Qed.

Lemma ask_grid_dim_accepted (py_int : string -> option Z) (line : string)
    (rest : list string) (d : Z) :
  dim_answer_accepted py_int line d ->
  ask_grid_dim py_int (line :: rest) = Some (d, rest).
Proof.
  intros [Hline Hd]. cbn [ask_grid_dim]. rewrite Hline, Hd.
  apply dim_refused_false in Hd. unfold min_grid_dim in Hd.
  destruct (Z.eqb_spec d 0) as [Hz|Hz]; [exfalso; lia | reflexivity].
Qed.

Lemma ask_grid_dim_skip (py_int : string -> option Z)
    (bad rest : list string) :
  Forall (dim_answer_refused py_int) bad ->
  ask_grid_dim py_int (bad ++ rest) = ask_grid_dim py_int rest.
Proof.
  intros Hbad. induction Hbad as [|line bad Hline _ IH]; [reflexivity|].
  cbn [app]. rewrite (ask_grid_dim_refused _ _ _ Hline). exact IH.
Qed.

Lemma ask_grid_dim_cases (py_int : string -> option Z)
    (inputs : list string) :
  (ask_grid_dim py_int inputs = None /\
   Forall (dim_answer_refused py_int) inputs) \/
  (exists bad line rest d,
     inputs = bad ++ line :: rest /\
     Forall (dim_answer_refused py_int) bad /\
     dim_answer_accepted py_int line d /\
     ask_grid_dim py_int inputs = Some (d, rest)).
Proof.
  induction inputs as [|line inputs IH].
  - left. split; [reflexivity | constructor].
  - destruct (dim_answer_cases py_int line) as [Href|[d Hacc]].
    + rewrite (ask_grid_dim_refused _ _ _ Href).
      destruct IH as [[Hnone Hall]|(bad & line' & rest & d & Hin & Hbad & Hacc & Hsome)].
      * left. split; [exact Hnone | constructor; assumption].
      * right. exists (line :: bad), line', rest, d.
        split; [rewrite Hin; reflexivity|].
        split; [constructor; assumption|]. split; assumption.
    + right. exists [], line, inputs, d. split; [reflexivity|].
      split; [constructor|]. split; [exact Hacc|].
      apply ask_grid_dim_accepted, Hacc.
Qed.

Lemma target_answer_cases (py_int : string -> option Z)
    (random_randint : Z -> Z -> Z) (cell_count : Z) (inp : string) :
  target_answer_refused py_int random_randint cell_count inp \/
  exists t, target_answer_accepted py_int random_randint cell_count inp t.
Proof.
  unfold target_answer_refused, target_answer_accepted.
  destruct (String.eqb inp "").
  - destruct (Z.eq_dec (random_randint 1 cell_count) 0) as [Hz|Hz];
      [left; exact Hz|].
    right. exists (random_randint 1 cell_count). split; [reflexivity | exact Hz].
  - destruct (py_int inp) as [t|]; [|left; exact I].
    destruct (targets_refused t cell_count) eqn:Ht; [left; reflexivity|].
    right. exists t. split; [reflexivity | exact Ht].
Qed.

Lemma ask_target_count_refused (py_int : string -> option Z)
    (random_randint : Z -> Z -> Z) (cell_count : Z) (inp : string)
    (rest : list string) :
  target_answer_refused py_int random_randint cell_count inp ->
  ask_target_count py_int random_randint cell_count (inp :: rest) =
  ask_target_count py_int random_randint cell_count rest.
Proof.
  unfold target_answer_refused. cbn [ask_target_count].
  destruct (String.eqb inp "").
  - intros Hz. rewrite Hz. reflexivity.
  - destruct (py_int inp) as [t|]; [|reflexivity].
    intros Ht. rewrite Ht. reflexivity.
Qed.

Lemma ask_target_count_accepted (py_int : string -> option Z)
    (random_randint : Z -> Z -> Z) (cell_count : Z) (inp : string)
    (rest : list string) (t : Z) :
  target_answer_accepted py_int random_randint cell_count inp t ->
  ask_target_count py_int random_randint cell_count (inp :: rest) =
  Some (t, rest).
Proof.
  unfold target_answer_accepted. cbn [ask_target_count].
  destruct (String.eqb inp "").
  - intros [Ht Hz]. rewrite <- Ht.
    destruct (Z.eqb_spec t 0) as [H0|H0]; [contradiction | reflexivity].
  - intros [Hinp Ht]. rewrite Hinp, Ht. apply targets_refused_false in Ht.
    destruct (Z.eqb_spec t 0) as [H0|H0]; [exfalso; lia | reflexivity].
Qed.

Lemma ask_target_count_skip (py_int : string -> option Z)
    (random_randint : Z -> Z -> Z) (cell_count : Z)
    (bad rest : list string) :
  Forall (target_answer_refused py_int random_randint cell_count) bad ->
  ask_target_count py_int random_randint cell_count (bad ++ rest) =
  ask_target_count py_int random_randint cell_count rest.
Proof.
  intros Hbad. induction Hbad as [|inp bad Hinp _ IH]; [reflexivity|].
  cbn [app]. rewrite (ask_target_count_refused _ _ _ _ _ Hinp). exact IH.
Qed.

Lemma ask_target_count_cases (py_int : string -> option Z)
    (random_randint : Z -> Z -> Z) (cell_count : Z) (inputs : list string) :
  (ask_target_count py_int random_randint cell_count inputs = None /\
   Forall (target_answer_refused py_int random_randint cell_count) inputs) \/
  (exists bad inp rest t,
     inputs = bad ++ inp :: rest /\
     Forall (target_answer_refused py_int random_randint cell_count) bad /\
     target_answer_accepted py_int random_randint cell_count inp t /\
     ask_target_count py_int random_randint cell_count inputs =
       Some (t, rest)).
Proof.
  induction inputs as [|inp inputs IH].
  - left. split; [reflexivity | constructor].
  - destruct (target_answer_cases py_int random_randint cell_count inp)
      as [Href|[t Hacc]].
    + rewrite (ask_target_count_refused _ _ _ _ _ Href).
      destruct IH as [[Hnone Hall]|(bad & inp' & rest & t & Hin & Hbad & Hacc & Hsome)].
      * left. split; [exact Hnone | constructor; assumption].
      * right. exists (inp :: bad), inp', rest, t.
        split; [rewrite Hin; reflexivity|].
        split; [constructor; assumption|]. split; assumption.
    + right. exists [], inp, inputs, t. split; [reflexivity|].
      split; [constructor|]. split; [exact Hacc|].
      apply ask_target_count_accepted, Hacc.
Qed.

Lemma sim_answer_cases (str_lower : string -> string) (inp : string) :
  sim_answer_refused str_lower inp \/
  exists l, sim_answer_accepted str_lower inp l.
Proof.
  unfold sim_answer_refused, sim_answer_accepted.
  destruct (String.eqb_spec inp "") as [Hb|Hb];
    [right; exists true; right; right; exact Hb|].
  destruct (String.eqb_spec (str_lower inp) "y") as [Hy|Hy];
    [right; exists true; left; exact Hy|].
  destruct (String.eqb_spec (str_lower inp) "") as [He|He];
    [right; exists true; right; left; exact He|].
  destruct (String.eqb_spec (str_lower inp) "n") as [Hn|Hn].
  - right. exists false. split; assumption.
  - left. split; [exact Hb|]. split; [exact Hy|]. split; assumption.
Qed.

Lemma ask_local_sim_refused (str_lower : string -> string) (inp : string)
    (rest : list string) :
  sim_answer_refused str_lower inp ->
  ask_local_sim str_lower (inp :: rest) = ask_local_sim str_lower rest.
Proof.
  intros (Hb & Hy & He & Hn). cbn [ask_local_sim].
  destruct (String.eqb_spec (str_lower inp) "y"); [contradiction|].
  destruct (String.eqb_spec (str_lower inp) ""); [contradiction|].
  destruct (String.eqb_spec inp ""); [contradiction|].
  destruct (String.eqb_spec (str_lower inp) "n"); [contradiction|].
  reflexivity.
Qed.

Lemma ask_local_sim_accepted (str_lower : string -> string) (inp : string)
    (rest : list string) (l : bool) :
  sim_answer_accepted str_lower inp l ->
  ask_local_sim str_lower (inp :: rest) = Some (l, rest).
Proof.
  unfold sim_answer_accepted. cbn [ask_local_sim]. destruct l.
  - intros H.
    destruct (String.eqb_spec (str_lower inp) "y") as [Hy|Hy]; [reflexivity|].
    destruct (String.eqb_spec (str_lower inp) "") as [He|He]; [reflexivity|].
    destruct (String.eqb_spec inp "") as [Hb|Hb]; [reflexivity|].
    destruct H as [H|[H|H]]; contradiction.
  - intros [Hn Hb].
    destruct (String.eqb_spec (str_lower inp) "y") as [Hy|Hy];
      [rewrite Hn in Hy; discriminate Hy|].
    destruct (String.eqb_spec (str_lower inp) "") as [He|He];
      [rewrite Hn in He; discriminate He|].
    destruct (String.eqb_spec inp "") as [Hb'|Hb']; [contradiction|].
    destruct (String.eqb_spec (str_lower inp) "n") as [Hn'|Hn'];
      [reflexivity | contradiction].
Qed.

Lemma ask_local_sim_skip (str_lower : string -> string)
    (bad rest : list string) :
  Forall (sim_answer_refused str_lower) bad ->
  ask_local_sim str_lower (bad ++ rest) = ask_local_sim str_lower rest.
Proof.
  intros Hbad. induction Hbad as [|inp bad Hinp _ IH]; [reflexivity|].
  cbn [app]. rewrite (ask_local_sim_refused _ _ _ Hinp). exact IH.
Qed.

Lemma ask_local_sim_cases (str_lower : string -> string)
    (inputs : list string) :
  (ask_local_sim str_lower inputs = None /\
   Forall (sim_answer_refused str_lower) inputs) \/
  (exists bad inp rest l,
     inputs = bad ++ inp :: rest /\
     Forall (sim_answer_refused str_lower) bad /\
     sim_answer_accepted str_lower inp l /\
     ask_local_sim str_lower inputs = Some (l, rest)).
Proof.
  induction inputs as [|inp inputs IH].
  - left. split; [reflexivity | constructor].
  - destruct (sim_answer_cases str_lower inp) as [Href|[l Hacc]].
    + rewrite (ask_local_sim_refused _ _ _ Href).
      destruct IH as [[Hnone Hall]|(bad & inp' & rest & l & Hin & Hbad & Hacc & Hsome)].
      * left. split; [exact Hnone | constructor; assumption].
      * right. exists (inp :: bad), inp', rest, l.
        split; [rewrite Hin; reflexivity|].
        split; [constructor; assumption|]. split; assumption.
    + right. exists [], inp, inputs, l. split; [reflexivity|].
      split; [constructor|]. split; [exact Hacc|].
      apply ask_local_sim_accepted, Hacc.
Qed.

(** How the three prompts make up the start-up. *)
Lemma interactive_configured (py_int : string -> option Z)
    (str_lower : string -> string) (random_randint : Z -> Z -> Z)
    (inputs : list string) (d t : Z) (l : bool) :
  interactive py_int str_lower random_randint inputs = Configured d t l <->
  exists inputs1 inputs2 inputs3,
    ask_grid_dim py_int inputs = Some (d, inputs1) /\
    ask_target_count py_int random_randint (d ^ 2) inputs1 =
      Some (t, inputs2) /\
    ask_local_sim str_lower inputs2 = Some (l, inputs3).
Proof.
  unfold interactive. split.
  - destruct (ask_grid_dim py_int inputs) as [[d' in1]|]; [|discriminate].
    destruct (ask_target_count py_int random_randint (d' ^ 2) in1)
      as [[t' in2]|] eqn:Ht; [|discriminate].
    destruct (ask_local_sim str_lower in2) as [[l' in3]|] eqn:Hl;
      [|discriminate].
    intros H. injection H as Hd Ht' Hl'. subst d' t' l'.
    exists in1, in2, in3. split; [reflexivity|]. split; assumption.
  - intros (in1 & in2 & in3 & Hd & Ht & Hl). rewrite Hd, Ht, Hl. reflexivity.
Qed.

Lemma interactive_end_of_input (py_int : string -> option Z)
    (str_lower : string -> string) (random_randint : Z -> Z -> Z)
    (inputs : list string) :
  interactive py_int str_lower random_randint inputs = EndOfInput <->
  ask_grid_dim py_int inputs = None \/
  exists d inputs1,
    ask_grid_dim py_int inputs = Some (d, inputs1) /\
    (ask_target_count py_int random_randint (d ^ 2) inputs1 = None \/
     exists t inputs2,
       ask_target_count py_int random_randint (d ^ 2) inputs1 =
         Some (t, inputs2) /\
       ask_local_sim str_lower inputs2 = None).
Proof.
  unfold interactive. split.
  - destruct (ask_grid_dim py_int inputs) as [[d in1]|]; [|left; reflexivity].
    intros H. right. exists d, in1. split; [reflexivity|].
    destruct (ask_target_count py_int random_randint (d ^ 2) in1)
      as [[t in2]|]; [|left; reflexivity].
    right. exists t, in2. split; [reflexivity|].
    destruct (ask_local_sim str_lower in2) as [[l in3]|];
      [discriminate H | reflexivity].
  - intros [Hd|(d & in1 & Hd & [Ht|(t & in2 & Ht & Hl)])].
    + rewrite Hd. reflexivity.
    + rewrite Hd, Ht. reflexivity.
    + rewrite Hd, Ht, Hl. reflexivity.
Qed.

(** X12. At each prompt the answers are gone through in order: a refused
    answer (not a number or out of range at the first two prompts, a blank
    line whose random count is 0 at the second, anything but yes, no and
    blank at the third) is asked again, and the first accepted answer gives
    the value and leaves the lines after it to the next prompt.  A prompt
    ends with EOFError exactly when every line left is refused, so with no
    line left it does; the start-up ends with EOFError exactly when one of
    its three prompts does, gives a configuration exactly when all three
    accept, and never exits. *)
Theorem prompts_retry (py_int : string -> option Z)
    (str_lower : string -> string) (random_randint : Z -> Z -> Z) :
  (forall bad rest,
     Forall (dim_answer_refused py_int) bad ->
     ask_grid_dim py_int (bad ++ rest) = ask_grid_dim py_int rest) /\
  (forall inputs,
     ask_grid_dim py_int inputs = None <->
     Forall (dim_answer_refused py_int) inputs) /\
  (forall inputs d rest,
     ask_grid_dim py_int inputs = Some (d, rest) <->
     exists bad line,
       inputs = bad ++ line :: rest /\
       Forall (dim_answer_refused py_int) bad /\
       dim_answer_accepted py_int line d) /\
  (forall cell_count bad rest,
     Forall (target_answer_refused py_int random_randint cell_count) bad ->
     ask_target_count py_int random_randint cell_count (bad ++ rest) =
     ask_target_count py_int random_randint cell_count rest) /\
  (forall cell_count inputs,
     ask_target_count py_int random_randint cell_count inputs = None <->
     Forall (target_answer_refused py_int random_randint cell_count) inputs) /\
  (forall cell_count inputs t rest,
     ask_target_count py_int random_randint cell_count inputs =
       Some (t, rest) <->
     exists bad inp,
       inputs = bad ++ inp :: rest /\
       Forall (target_answer_refused py_int random_randint cell_count) bad /\
       target_answer_accepted py_int random_randint cell_count inp t) /\
  (forall bad rest,
     Forall (sim_answer_refused str_lower) bad ->
     ask_local_sim str_lower (bad ++ rest) = ask_local_sim str_lower rest) /\
  (forall inputs,
     ask_local_sim str_lower inputs = None <->
     Forall (sim_answer_refused str_lower) inputs) /\
  (forall inputs l rest,
     ask_local_sim str_lower inputs = Some (l, rest) <->
     exists bad inp,
       inputs = bad ++ inp :: rest /\
       Forall (sim_answer_refused str_lower) bad /\
       sim_answer_accepted str_lower inp l) /\
  (forall inputs code,
     interactive py_int str_lower random_randint inputs <> Exit code) /\
  (forall script inputs,
     configure py_int str_lower random_randint [] inputs =
       interactive py_int str_lower random_randint inputs /\
     configure py_int str_lower random_randint [script] inputs =
       interactive py_int str_lower random_randint inputs) /\
  (forall inputs d t l,
     interactive py_int str_lower random_randint inputs = Configured d t l <->
     exists inputs1 inputs2 inputs3,
       ask_grid_dim py_int inputs = Some (d, inputs1) /\
       ask_target_count py_int random_randint (d ^ 2) inputs1 =
         Some (t, inputs2) /\
       ask_local_sim str_lower inputs2 = Some (l, inputs3)) /\
  (forall inputs,
     interactive py_int str_lower random_randint inputs = EndOfInput <->
     ask_grid_dim py_int inputs = None \/
     exists d inputs1,
       ask_grid_dim py_int inputs = Some (d, inputs1) /\
       (ask_target_count py_int random_randint (d ^ 2) inputs1 = None \/
        exists t inputs2,
          ask_target_count py_int random_randint (d ^ 2) inputs1 =
            Some (t, inputs2) /\
          ask_local_sim str_lower inputs2 = None)) /\
  interactive py_int str_lower random_randint [] = EndOfInput.
Proof.
  split; [exact (ask_grid_dim_skip py_int)|]. split.
  { intros inputs. split.
    - intros Hnone.
      destruct (ask_grid_dim_cases py_int inputs)
        as [[_ Hall]|(bad & line & rest & d & _ & _ & _ & Hsome)];
        [exact Hall|].
      rewrite Hnone in Hsome. discriminate Hsome.
    - intros Hall. rewrite <- (app_nil_r inputs).
      rewrite (ask_grid_dim_skip py_int inputs [] Hall). reflexivity. }
  split.
  { intros inputs d rest. split.
    - intros Hsome.
      destruct (ask_grid_dim_cases py_int inputs)
        as [[Hnone _]|(bad & line & rest' & d' & Hin & Hbad & Hacc & Hsome')].
      + rewrite Hnone in Hsome. discriminate Hsome.
      + rewrite Hsome in Hsome'. injection Hsome' as Hd Hrest.
        subst d' rest'. exists bad, line. split; [exact Hin|]. split; assumption.
    - intros (bad & line & Hin & Hbad & Hacc). rewrite Hin.
      rewrite (ask_grid_dim_skip py_int bad _ Hbad).
      apply ask_grid_dim_accepted, Hacc. }
  split; [exact (ask_target_count_skip py_int random_randint)|]. split.
  { intros cell_count inputs. split.
    - intros Hnone.
      destruct (ask_target_count_cases py_int random_randint cell_count inputs)
        as [[_ Hall]|(bad & inp & rest & t & _ & _ & _ & Hsome)];
        [exact Hall|].
      rewrite Hnone in Hsome. discriminate Hsome.
    - intros Hall. rewrite <- (app_nil_r inputs).
      rewrite (ask_target_count_skip py_int random_randint cell_count inputs []
                 Hall).
      reflexivity. }
  split.
  { intros cell_count inputs t rest. split.
    - intros Hsome.
      destruct (ask_target_count_cases py_int random_randint cell_count inputs)
        as [[Hnone _]|(bad & inp & rest' & t' & Hin & Hbad & Hacc & Hsome')].
      + rewrite Hnone in Hsome. discriminate Hsome.
      + rewrite Hsome in Hsome'. injection Hsome' as Ht Hrest.
        subst t' rest'. exists bad, inp. split; [exact Hin|]. split; assumption.
    - intros (bad & inp & Hin & Hbad & Hacc). rewrite Hin.
      rewrite (ask_target_count_skip py_int random_randint cell_count bad _
                 Hbad).
      apply ask_target_count_accepted, Hacc. }
  split; [exact (ask_local_sim_skip str_lower)|]. split.
  { intros inputs. split.
    - intros Hnone.
      destruct (ask_local_sim_cases str_lower inputs)
        as [[_ Hall]|(bad & inp & rest & l & _ & _ & _ & Hsome)];
        [exact Hall|].
      rewrite Hnone in Hsome. discriminate Hsome.
    - intros Hall. rewrite <- (app_nil_r inputs).
      rewrite (ask_local_sim_skip str_lower inputs [] Hall). reflexivity. }
  split.
  { intros inputs l rest. split.
    - intros Hsome.
      destruct (ask_local_sim_cases str_lower inputs)
        as [[Hnone _]|(bad & inp & rest' & l' & Hin & Hbad & Hacc & Hsome')].
      + rewrite Hnone in Hsome. discriminate Hsome.
      + rewrite Hsome in Hsome'. injection Hsome' as Hl Hrest.
        subst l' rest'. exists bad, inp. split; [exact Hin|]. split; assumption.
    - intros (bad & inp & Hin & Hbad & Hacc). rewrite Hin.
      rewrite (ask_local_sim_skip str_lower bad _ Hbad).
      apply ask_local_sim_accepted, Hacc. }
  split.
  { intros inputs code. unfold interactive.
    destruct (ask_grid_dim py_int inputs) as [[d in1]|]; [|discriminate].
    destruct (ask_target_count py_int random_randint (d ^ 2) in1)
      as [[t in2]|]; [|discriminate].
    destruct (ask_local_sim str_lower in2) as [[l in3]|]; discriminate. }
  split; [intros script inputs; split; reflexivity|].
  split; [exact (interactive_configured py_int str_lower random_randint)|].
  split; [exact (interactive_end_of_input py_int str_lower random_randint)|].
  reflexivity.
Qed.

(** X13. The steps of the script compose.  The start-up gives a
    configuration, the placement loop ends on it, the backend selection
    keeps the local simulator or, when it was turned down, takes the
    hardware unless the access to it failed, and the scan runs with what
    the selection gave.  When that scan has finished, cell by cell the
    Clear cells are the cells without target, a cell with a target is
    Unknown or Hit, the Unknown cells are drawn cells that hold a target,
    their number is the number reported as located, and the probes made
    are the jobs run, at most one per cell and sweep. *)
Theorem script_run (py_int : string -> option Z)
    (str_lower : string -> string) (random_randint : Z -> Z -> Z)
    (argv inputs : list string) (d t : Z) (l ls : bool)
    (draws : list (nat * nat)) (tm : Np.matrix)
    (aer_transpile tr : QuantumCircuit -> QuantumCircuit)
    (hardware : option ((QuantumCircuit -> QuantumCircuit) *
                        (nat -> QuantumCircuit -> list string)))
    (sim_backend sampler_inst : nat -> QuantumCircuit -> list string)
    (sweeps : nat) (w : world)
    (Hrand : randint_in_range random_randint)
    (Hconf : configure py_int str_lower random_randint argv inputs =
             Configured d t l)
    (Hplaced : place (Z.to_nat d) t draws = Placed tm)
    (Hsel : select_backend l aer_transpile hardware = (ls, tr))
    (Hsampler : forall pass_mgr_run sampler,
                  hardware = Some (pass_mgr_run, sampler) ->
                  sampler_inst = sampler)
    (Hfinished : scan (Z.to_nat d) t ls tr sim_backend sampler_inst tm
                      sweeps (initial_world (Z.to_nat d)) = Finished w) :
  (ls = true <-> l = true \/ hardware = None) /\
  (ls = true -> tr = aer_transpile) /\
  (ls = false ->
   exists pass_mgr_run,
     hardware = Some (pass_mgr_run, sampler_inst) /\ tr = pass_mgr_run) /\
  Np.sum_eq tm 1 = t /\
  clear_cells_detected (glob w) = d ^ 2 - t /\
  Np.sum_eq (result_matrix (glob w)) (-1) = Np.sum_eq tm 0 /\
  (forall r c, Np.getitem tm r c = Some 0 <->
               Np.getitem (result_matrix (glob w)) r c = Some (-1)) /\
  (forall r c, Np.getitem tm r c = Some 1 <->
               Np.getitem (result_matrix (glob w)) r c = Some 0 \/
               Np.getitem (result_matrix (glob w)) r c = Some 1) /\
  (forall r c, (r < Z.to_nat d)%nat -> (c < Z.to_nat d)%nat ->
     exists y x,
       Np.getitem tm r c = Some y /\
       Np.getitem (result_matrix (glob w)) r c = Some x /\
       (y = 0 /\ x = -1 \/ y = 1 /\ (x = 0 \/ x = 1))) /\
  (forall r c, Np.getitem (result_matrix (glob w)) r c = Some 0 ->
               Np.getitem tm r c = Some 1 /\ (r, c) ∈ draws) /\
  report_located t (glob w) = Np.sum_eq (result_matrix (glob w)) 0 /\
  cycle_executions (glob w) = Z.of_nat (jobs w) /\
  cycle_executions (glob w) <= Z.of_nat sweeps * d ^ 2.
Proof.
  destruct (configure_accepts _ _ _ _ _ _ _ _ Hrand Hconf) as [Hd Ht].
  assert (Hcc : cell_count (Z.to_nat d) = d ^ 2).
  { unfold cell_count. unfold min_grid_dim in Hd. rewrite Z2Nat.id by lia.
    reflexivity. }
  pose proof (place_loop_inv (Z.to_nat d) t draws _ 0
                (zeros_placing (Z.to_nat d)) ltac:(lia)) as Hok.
  fold (place (Z.to_nat d) t draws) in Hok. rewrite Hplaced in Hok.
  pose proof (placed_zero_count _ _ tm Hok) as Hzero.
  destruct (place_loop_drawn _ draws _ tm 0 Hplaced) as (Hdrawn & _).
  destruct (initial_world_ok (Z.to_nat d) t tm) as [Hw0 Hs0].
  pose proof (scan_ok _ _ ls tr sim_backend sampler_inst tm sweeps _
                Hw0 Hs0) as Hscan.
  pose proof (scan_jobs_le (Z.to_nat d) t ls tr sim_backend sampler_inst
                tm sweeps (initial_world (Z.to_nat d))) as Hjobs.
  rewrite Hfinished in Hscan, Hjobs. simpl in Hjobs.
  destruct Hscan as ((Hg & _ & _ & _ & Hcyc) & _ & Hc).
  destruct (complete_cells _ _ _ (glob w) Hok Hg Hc)
    as (Hempty & Hunknown & Hclear).
  destruct (complete_cells_exact _ _ _ (glob w) Hok Hg Hc)
    as (Hzeros & Hones & Hall).
  pose proof (globals_ok_cells _ _ (glob w) Hg) as Hcells.
  destruct Hg as (_ & _ & Hhit & Hcl). destruct Hok as (_ & _ & Hsum).
  rewrite Hcc in *. unfold report_located, report_targets_hit.
  split.
  { unfold select_backend in Hsel. destruct l.
    - injection Hsel as <- _. split; auto.
    - destruct hardware as [[pm s]|].
      + injection Hsel as <- _. split; [discriminate|].
        intros [H|H]; discriminate H.
      + injection Hsel as <- _. split; auto. }
  split.
  { unfold select_backend in Hsel. intros Hls. destruct l.
    - injection Hsel as _ <-. reflexivity.
    - destruct hardware as [[pm s]|].
      + injection Hsel as Hf _. rewrite Hls in Hf. discriminate Hf.
      + injection Hsel as _ <-. reflexivity. }
  split.
  { unfold select_backend in Hsel. intros Hls. destruct l.
    - injection Hsel as Hf _. rewrite Hls in Hf. discriminate Hf.
    - destruct hardware as [[pm s]|].
      + injection Hsel as _ <-. exists pm.
        rewrite (Hsampler pm s eq_refl). split; reflexivity.
      + injection Hsel as Hf _. rewrite Hls in Hf. discriminate Hf. }
  split; [exact Hsum|]. split; [exact Hclear|].
  split; [rewrite <- Hcl, Hzero; exact Hclear|].
  split; [exact Hzeros|]. split; [exact Hones|]. split; [exact Hall|].
  split.
  { intros r c Hrc. pose proof (Hunknown r c Hrc) as Htm. split; [exact Htm|].
    destruct (Hdrawn r c Htm) as [Hz|Hin]; [|exact Hin].
    apply getitem_zeros in Hz. discriminate. }
  split; [lia|]. split; [exact Hcyc|]. rewrite Hcyc. nia.
Qed.

(** ** The further theorems at work on the small board *)

Lemma demo_randint_in_range : randint_in_range Demo.randint.
Proof. intros a b Hab. unfold Demo.randint. lia. Defined.

Lemma finished_report_witness :
  placement_ok 3 1 Demo.target_matrix /\
  report_located 1
    (glob (run_world (scan 3 1 true Demo.transpile Demo.backend Demo.backend
                           Demo.target_matrix 5 (initial_world 3)))) =
  Np.sum_eq
    (result_matrix
       (glob (run_world (scan 3 1 true Demo.transpile Demo.backend Demo.backend
                              Demo.target_matrix 5 (initial_world 3))))) 0.
Proof.
  split; [exact demo_placement_ok|].
  assert (Hfin : scan 3 1 true Demo.transpile Demo.backend Demo.backend
                      Demo.target_matrix 5 (initial_world 3) =
                 Finished
                   (run_world (scan 3 1 true Demo.transpile Demo.backend
                                    Demo.backend Demo.target_matrix 5
                                    (initial_world 3))))
    by (vm_compute; reflexivity).
  pose proof (finished_report 3 1 true Demo.transpile Demo.backend Demo.backend
                Demo.target_matrix 5 _ demo_placement_ok Hfin) as H.
  destruct H as (_ & _ & _ & H & _). exact H.
Defined.

Lemma scan_hits_bound_witness :
  placement_ok 3 1 Demo.target_matrix /\
  Forall (fun g => 0 <= targets_hit g <= 1 /\ 0 <= report_located 1 g)
    (glob (run_world (scan 3 1 true Demo.transpile Demo.backend Demo.backend
                           Demo.target_matrix 2 (initial_world 3))) ::
     past (glob (initial_world 3))
       (run_world (scan 3 1 true Demo.transpile Demo.backend Demo.backend
                        Demo.target_matrix 2 (initial_world 3)))).
Proof.
  split; [exact demo_placement_ok|].
  pose proof (scan_hits_bound 3 1 true Demo.transpile Demo.backend
                Demo.backend Demo.target_matrix 2 demo_placement_ok) as H.
  exact H.
Defined.

Lemma progress_bar_length_witness :
  placement_ok 3 1 Demo.target_matrix /\
  Forall (fun g =>
            String.length (progress_bar 3 1 g) = Z.to_nat (cell_count 3 - 1) /\
            (scan_complete 3 1 g = true ->
             progress_bar 3 1 g = Py.str_mul "#" (cell_count 3 - 1)) /\
            (scan_complete 3 1 g = false ->
             progress_bar 3 1 g <> Py.str_mul "#" (cell_count 3 - 1)))
    (glob (run_world (scan 3 1 true Demo.transpile Demo.backend Demo.backend
                           Demo.target_matrix 2 (initial_world 3))) ::
     past (glob (initial_world 3))
       (run_world (scan 3 1 true Demo.transpile Demo.backend Demo.backend
                        Demo.target_matrix 2 (initial_world 3)))).
Proof.
  split; [exact demo_placement_ok|].
  pose proof (progress_bar_length 3 1 true Demo.transpile Demo.backend
                Demo.backend Demo.target_matrix 2 demo_placement_ok) as H.
  exact H.
Defined.

Lemma history_steps_witness :
  exists g older,
    history (run_world (scan 3 1 true Demo.transpile Demo.backend Demo.backend
                             Demo.target_matrix 5 (initial_world 3))) =
      [] ++ g :: older /\
    cycle_executions g = 17.
Proof.
  eexists _, _. split; [vm_compute; reflexivity|].
  match goal with
  | |- cycle_executions ?g = _ =>
      assert (Hh : history
                     (run_world (scan 3 1 true Demo.transpile Demo.backend
                                      Demo.backend Demo.target_matrix 5
                                      (initial_world 3))) =
                   [] ++ g :: _) by (vm_compute; reflexivity);
      pose proof (history_steps 3 1 true Demo.transpile Demo.backend
                    Demo.backend Demo.target_matrix 5 [] _ g Hh) as H
  end.
  destruct H as [H _]. rewrite H. reflexivity.
Defined.

Lemma place_only_drawn_witness :
  3 <= Z.of_nat (length Demo.draws) /\
  forall more,
    place 3 3 (Demo.draws ++ more) = Placed [[1; 0; 0]; [0; 0; 1]; [0; 0; 1]].
Proof.
  assert (Hplaced : place 3 3 Demo.draws =
                    Placed [[1; 0; 0]; [0; 0; 1]; [0; 0; 1]]) by reflexivity.
  pose proof (place_only_drawn 3 3 Demo.draws _ Hplaced) as H.
  destruct H as (_ & Hlen & Hmore). split; [exact Hlen | exact Hmore].
Defined.

Lemma scan_backend_ext_witness :
  scan 3 1 true Demo.transpile Demo.backend Demo.backend Demo.target_matrix 5
       (initial_world 3) =
  scan 3 1 true Demo.transpile Demo.backend (fun _ _ => []) Demo.target_matrix 5
       (initial_world 3).
Proof.
  pose proof (scan_backend_ext 3 1 true true Demo.transpile Demo.transpile
                Demo.backend Demo.backend Demo.backend (fun _ _ => [])
                Demo.target_matrix 5 (initial_world 3)
                (fun k => eq_refl) (fun k => eq_refl)) as H.
  exact H.
Defined.

Lemma configure_valid_witness :
  randint_in_range Demo.randint /\
  (min_grid_dim <= 4 <= max_grid_dim /\ 1 <= 1 <= 4 ^ 2 /\
   valid_config (Z.to_nat 4) 1).
Proof.
  split; [exact demo_randint_in_range|].
  assert (Hconf : configure Demo.int Demo.lower Demo.randint ["battle.py"]%string
                    ["abc"; "12"; "4"; ""; "x"; "y"]%string = Configured 4 1 true)
    by reflexivity.
  pose proof (configure_valid Demo.int Demo.lower Demo.randint _ _ 4 1 true
                demo_randint_in_range Hconf) as H.
  exact H.
Defined.

Lemma script_run_witness :
  randint_in_range Demo.randint /\
  forall r c,
    Np.getitem Demo.target_matrix r c = Some 0 <->
    Np.getitem
      (result_matrix
         (glob (run_world (scan 3 1 true Demo.transpile Demo.backend
                                (fun _ _ => []) Demo.target_matrix 5
                                (initial_world 3))))) r c = Some (-1).
Proof.
  split; [exact demo_randint_in_range|].
  assert (Hconf : configure Demo.int Demo.lower Demo.randint
                    ["battle.py"; "3"; "1"; "0"]%string [] =
                  Configured 3 1 false)
    by reflexivity.
  assert (Hplaced : place (Z.to_nat 3) 1 [(0, 0)]%nat =
                    Placed Demo.target_matrix) by reflexivity.
  assert (Hsel : select_backend false Demo.transpile None =
                 (true, Demo.transpile)) by reflexivity.
  assert (Hsampler : forall pass_mgr_run sampler,
            @None ((QuantumCircuit -> QuantumCircuit) *
                   (nat -> QuantumCircuit -> list string)) =
              Some (pass_mgr_run, sampler) ->
            (fun (_ : nat) (_ : QuantumCircuit) => @nil string) = sampler)
    by (intros pass_mgr_run sampler H; discriminate H).
  assert (Hfin : scan (Z.to_nat 3) 1 true Demo.transpile Demo.backend
                      (fun _ _ => []) Demo.target_matrix 5
                      (initial_world (Z.to_nat 3)) =
                 Finished
                   (run_world (scan 3 1 true Demo.transpile Demo.backend
                                    (fun _ _ => []) Demo.target_matrix 5
                                    (initial_world 3))))
    by (vm_compute; reflexivity).
  pose proof (script_run Demo.int Demo.lower Demo.randint _ _ 3 1 false true
                _ _ Demo.transpile Demo.transpile None Demo.backend
                (fun _ _ => []) 5 _
                demo_randint_in_range Hconf Hplaced Hsel Hsampler Hfin) as H.
  destruct H as (_ & _ & _ & _ & _ & _ & H & _). exact H.
Defined.

(** The start-up on a few command lines and answers. *)
Example demo_configure :
  configure Demo.int Demo.lower Demo.randint ["battle.py"; "3"; "1"]%string [] =
    Configured 3 1 true /\
  configure Demo.int Demo.lower Demo.randint ["battle.py"; "3"; "1"; "0"]%string [] =
    Configured 3 1 false /\
  configure Demo.int Demo.lower Demo.randint ["battle.py"; "3"; "1"; "7"]%string [] =
    Configured 3 1 true /\
  configure Demo.int Demo.lower Demo.randint ["battle.py"; "5"]%string [] =
    Configured 5 1 true /\
  configure Demo.int Demo.lower Demo.randint ["battle.py"; "2"; "1"]%string [] =
    Exit 1 /\
  configure Demo.int Demo.lower Demo.randint ["battle.py"; "3"; "10"]%string [] =
    Exit 1 /\
  configure Demo.int Demo.lower Demo.randint
    ["battle.py"; "info"; "a"; "b"; "c"; "d"]%string [] = Exit 0 /\
  configure Demo.int Demo.lower Demo.randint ["battle.py"]%string
    ["abc"; "12"; "4"; "0"; "17"; "16"; "maybe"; "n"]%string = Configured 4 16 false /\
  configure Demo.int Demo.lower Demo.randint ["battle.py"]%string ["4"; "3"]%string =
    EndOfInput.
Proof. repeat split. Qed.

(** The progress bar after two sweeps of the scan on the small board. *)
Example demo_progress_bar :
  progress_bar 3 1
    (glob (run_world (scan 3 1 true Demo.transpile Demo.backend Demo.backend
                           Demo.target_matrix 2 (initial_world 3)))) =
  "######.."%string.
Proof. vm_compute. reflexivity. Qed.
